(** * Package metrics: bus factor, ramp-up and license compatibility

    A shallow embedding of [src/metrics.ts].

    - JavaScript strings are Rocq [string]s; a character stands for one
      code unit in the range U+0000..U+00FF.
    - Counters ([totalContributors], [page], [sloc], [comments]) are
      natural numbers, kept as [N].
    - The literal scores of the bus factor (0.1, ..., 1.0, -1) are kept as
      the rationals the literals denote.
    - The ramp-up ratio is an IEEE 754 binary64 quotient ([SpecFloat]).
    - [async] functions that talk to the network are computations in a
      small monad which threads the observable effects (requests issued,
      console lines written) and can return or throw. *)

From Stdlib Require Import ZArith NArith QArith Bool List Lia.
From Stdlib Require Import Ascii String.
From Stdlib Require Import Floats.SpecFloat.
Import ListNotations.

Local Open Scope string_scope.
Local Open Scope list_scope.

(** ** JavaScript string primitives used by the metrics *)

Module JsString.

(** [String.prototype.startsWith] *)
Fixpoint startsWith (s p : string) : bool :=
  match p with
  | EmptyString => true
  | String c p' =>
      match s with
      | EmptyString => false
      | String d s' => Ascii.eqb d c && startsWith s' p'
      end
  end.

Fixpoint drop (n : nat) (s : string) : string :=
  match n with
  | O => s
  | S n' => match s with
            | EmptyString => EmptyString
            | String _ s' => drop n' s'
            end
  end.

(** [String.prototype.endsWith] *)
Definition endsWith (s p : string) : bool :=
  (String.length p <=? String.length s)%nat
  && String.eqb (drop (String.length s - String.length p) s) p.

(** [String.prototype.includes] *)
Fixpoint includes (s sub : string) : bool :=
  startsWith s sub
  || match s with
     | EmptyString => false
     | String _ s' => includes s' sub
     end.

(** [String.prototype.replace] with a string pattern: only the first
    occurrence is replaced.  The replacement strings of this program
    contain no [$], so no replacement pattern is ever expanded. *)
Fixpoint replace (s pat rep : string) : string :=
  if startsWith s pat then rep ++ drop (String.length pat) s
  else match s with
       | EmptyString => EmptyString
       | String c s' => String c (replace s' pat rep)
       end.

Definition code (c : ascii) : N := N_of_ascii c.

(** Case mapping of [toLowerCase] on U+0000..U+00FF: A-Z, and the
    Latin-1 capitals U+00C0..U+00DE without the multiplication sign. *)
Definition lowerChar (c : ascii) : ascii :=
  let n := code c in
  if ((65 <=? n) && (n <=? 90))%N then ascii_of_N (n + 32)
  else if ((192 <=? n) && (n <=? 222) && negb (n =? 215))%N
       then ascii_of_N (n + 32)
       else c.

(** [String.prototype.toLowerCase] *)
Fixpoint toLowerCase (s : string) : string :=
  match s with
  | EmptyString => EmptyString
  | String c s' => String (lowerChar c) (toLowerCase s')
  end.

(** WhiteSpace and LineTerminator code units below U+0100: TAB, LF, VT,
    FF, CR, SP and NBSP.  This is the class of [trim] and of [\s]. *)
Definition isSpace (c : ascii) : bool :=
  let n := code c in
  ((9 <=? n) && (n <=? 13) || (n =? 32) || (n =? 160))%N.

Fixpoint trimStart (s : string) : string :=
  match s with
  | EmptyString => EmptyString
  | String c s' => if isSpace c then trimStart s' else s
  end.

Fixpoint trimEnd (s : string) : string :=
  match s with
  | EmptyString => EmptyString
  | String c s' =>
      match trimEnd s' with
      | EmptyString => if isSpace c then EmptyString else String c EmptyString
      | t => String c t
      end
  end.

(** [String.prototype.trim] *)
Definition trim (s : string) : string := trimEnd (trimStart s).

Definition LF : ascii := ascii_of_N 10.

(** [s.split('\n')]: the pieces between line feeds; never empty. *)
Fixpoint splitLines (s : string) : list string :=
  match s with
  | EmptyString => [EmptyString]
  | String c s' =>
      if Ascii.eqb c LF then EmptyString :: splitLines s'
      else match splitLines s' with
           | [] => [String c EmptyString]
           | l :: ls => String c l :: ls
           end
  end.

(** [s.split('\n')[0]] *)
Definition firstLine (s : string) : string :=
  match splitLines s with
  | [] => EmptyString
  | l :: _ => l
  end.

(** Truthiness of a string: non-empty. *)
Definition truthy (s : string) : bool :=
  match s with
  | EmptyString => false
  | String _ _ => true
  end.

End JsString.

Import JsString.

(** ** Bus factor: the step function (metrics.ts, lines 40-61) *)

Local Open Scope Q_scope.

Definition busFactorScore (totalContributors : N) : Q :=
  if (totalContributors =? 1)%N then 0.1
  else if (totalContributors =? 2)%N then 0.2
  else if (totalContributors <=? 4)%N then 0.3
  else if (totalContributors <=? 8)%N then 0.4
  else if (totalContributors <=? 16)%N then 0.5
  else if (totalContributors <=? 32)%N then 0.6
  else if (totalContributors <=? 64)%N then 0.7
  else if (totalContributors <=? 128)%N then 0.8
  else if (totalContributors <=? 256)%N then 0.9
  else 1.0.

Close Scope Q_scope.

(** ** Effects: requests, console output, exceptions *)

(** One [axios.get] call: the URL, the query parameters and the headers. *)
Record Request := mkRequest {
  url : string;
  params : list (string * N);
  headers : list (string * string)
}.

(** What a run leaves behind, oldest first. *)
Record Effects := mkEffects {
  requests : list Request;
  console : list string
}.

Definition noEffects : Effects := {| requests := []; console := [] |}.

(** How a computation ends: with a value, with a thrown error (kept as its
    [message]), or cut off because the loop budget of the model ran out. *)
Inductive Completion (A : Type) : Type :=
| Returned (value : A)
| Thrown (message : string)
| OutOfFuel.

Arguments Returned {A} value.
Arguments Thrown {A} message.
Arguments OutOfFuel {A}.

Definition IO (A : Type) : Type := Effects -> Completion A * Effects.

Definition ret {A} (a : A) : IO A := fun e => (Returned a, e).

Definition throw {A} (message : string) : IO A := fun e => (Thrown message, e).

Definition outOfFuel {A} : IO A := fun e => (OutOfFuel, e).

Definition bind {A B} (m : IO A) (k : A -> IO B) : IO B :=
  fun e =>
    match m e with
    | (Returned a, e') => k a e'
    | (Thrown message, e') => (Thrown message, e')
    | (OutOfFuel, e') => (OutOfFuel, e')
    end.

(** [try { body } catch (error) { handler(error.message) }] *)
Definition try_catch {A} (body : IO A) (handler : string -> IO A) : IO A :=
  fun e =>
    match body e with
    | (Thrown message, e') => handler message e'
    | r => r
    end.

Declare Scope io_scope.
Delimit Scope io_scope with io.
Notation "x <- m ;; k" := (bind m (fun x => k))
  (at level 61, m at next level, right associativity) : io_scope.
Notation "m ;; k" := (bind m (fun _ => k))
  (at level 61, right associativity) : io_scope.
Local Open Scope io_scope.

(** [console.error] and [console.log]: one line on the operator's stream. *)
Definition console_write (line : string) : IO unit :=
  fun e => (Returned tt, {| requests := requests e; console := console e ++ [line] |}).

(** The answer of the remote side to one request. *)
Inductive Response (A : Type) : Type :=
| Failed (message : string)
| Reply (data : A).

Arguments Failed {A} message.
Arguments Reply {A} data.

(** [await axios.get(...)]: the request is issued, then the promise either
    resolves to the payload or rejects. *)
Definition axios_get {A} (endpoint : Request -> Response A) (r : Request) : IO A :=
  fun e =>
    let e' := {| requests := requests e ++ [r]; console := console e |} in
    match endpoint r with
    | Failed message => (Thrown message, e')
    | Reply data => (Returned data, e')
    end.

(** A synchronous call that may throw ([JSON.parse]). *)
Definition lift {A} (r : Response A) : IO A :=
  match r with
  | Failed message => throw message
  | Reply data => ret data
  end.

(** ** The world the metrics observe *)

Record Contributor := mkContributor {
  login : string;
  contributions : N
}.

(** Payloads are typed by what the code reads from them.  [Failed] is a
    rejected request, or a payload whose field cannot be read: the read
    throws in the [try] block of the request.
    - a contributors page is the array [response.data];
    - registry metadata is [data.repository.url], [None] when [repository]
      or its [url] is missing;
    - a contents or readme resource is its [content] after
      [Buffer.from(content, 'base64').toString('utf-8')];
    - [manifestLicense text] is [JSON.parse(text).license], [Failed] when
      parsing throws and [None] when the field is absent; the field is
      taken to be a string when it is there. *)
Record World := mkWorld {
  GITHUB_TOKEN : option string;
  contributorsEndpoint : Request -> Response (list Contributor);
  registryEndpoint : Request -> Response (option string);
  contentsEndpoint : Request -> Response string;
  manifestLicense : string -> Response (option string)
}.

Definition GITHUB_API_URL : string := "https://api.github.com/repos".
Definition NPM_REGISTRY_URL : string := "https://registry.npmjs.org/".
Definition PER_PAGE : N := 100.

(** ** getBusFactor (metrics.ts, lines 11-69) *)

Section BusFactor.

Variable w : World.

Definition contributorsRequest (repoPath : string) (page : N) : Request :=
  {| url := GITHUB_API_URL ++ "/" ++ repoPath ++ "/contributors";
     params := [("per_page", PER_PAGE); ("page", page)];
     headers := [("Accept", "application/vnd.github.v3+json")] |}.

(** The [while (true)] loop of lines 18-37, entered with the current
    values of [totalContributors] and [page]; it yields the total. *)
Fixpoint contributorPages (fuel : nat) (repoPath : string)
         (totalContributors page : N) : IO N :=
  match fuel with
  | O => outOfFuel
  | S fuel' =>
      contributors <- axios_get (contributorsEndpoint w)
                                (contributorsRequest repoPath page) ;;
      let totalContributors :=
        (totalContributors + N.of_nat (List.length contributors))%N in
      if (N.of_nat (List.length contributors) <? PER_PAGE)%N
      then ret totalContributors
      else contributorPages fuel' repoPath totalContributors (page + 1)%N
  end.

Definition getBusFactor (fuel : nat) (url : string) : IO Q :=
  let repoPath := replace url "https://github.com/" EmptyString in
  try_catch
    (totalContributors <- contributorPages fuel repoPath 0%N 1%N ;;
     ret (busFactorScore totalContributors))
    (fun message =>
       console_write ("Error fetching contributors for GitHub repo "
                      ++ url ++ ": " ++ message) ;;
       ret (-1)%Q).

End BusFactor.

(** ** Ramp-up (metrics.ts, lines 83-165) *)

Record SlocCount := mkSlocCount {
  sloc : N;
  comments : N
}.

(** The loop variables of [countSlocAndCommentsLimited]. *)
Record LineState := mkLineState {
  counted : SlocCount;
  inBlockComment : bool
}.

(** One iteration of the [for (const line of lines)] loop. *)
Definition countLine (st : LineState) (line : string) : LineState :=
  let trimmedLine := trim line in
  let c := counted st in
  if inBlockComment st then
    {| counted := {| sloc := sloc c; comments := comments c + 1 |};
       inBlockComment := if endsWith trimmedLine "*/" then false else true |}
  else if startsWith trimmedLine "//" then
    {| counted := {| sloc := sloc c; comments := comments c + 1 |};
       inBlockComment := false |}
  else if startsWith trimmedLine "/*" then
    {| counted := {| sloc := sloc c; comments := comments c + 1 |};
       inBlockComment := negb (endsWith trimmedLine "*/") |}
  else if (0 <? String.length trimmedLine)%nat then
    {| counted := {| sloc := sloc c + 1; comments := comments c |};
       inBlockComment := false |}
  else st.

Definition limitedLines (fileContent : string) : list string :=
  firstn 100 (splitLines fileContent).

Definition countSlocAndCommentsLimited (fileContent : string) : SlocCount :=
  let lines := limitedLines fileContent in
  counted (fold_left countLine lines
             {| counted := {| sloc := 0; comments := 0 |};
                inBlockComment := false |}).

(** A checkout: what [readdirSync], [statSync] and [readFileSync] see. *)
#[warnings="-register-all"] Inductive Entry : Type :=
| File (name : string) (content : string)
| Directory (name : string) (entries : list Entry).

(** [walkDirectoryLimited]: entries in directory order, directories
    entered on the spot, the callback run on each .ts or .js file.  The
    callback updates the totals of its caller, passed here as [acc]. *)
Fixpoint walkEntry {S : Type} (fileCallback : string -> S -> S)
         (entry : Entry) (acc : S) : S :=
  match entry with
  | Directory _ entries =>
      fold_left (fun acc entry => walkEntry fileCallback entry acc) entries acc
  | File name content =>
      if endsWith name ".ts" || endsWith name ".js"
      then fileCallback content acc
      else acc
  end.

Definition walkDirectoryLimited {S : Type} (fileCallback : string -> S -> S)
           (dir : list Entry) (acc : S) : S :=
  fold_left (fun acc entry => walkEntry fileCallback entry acc) dir acc.

(** IEEE 754 binary64, the Number type. *)
Definition prec : Z := 53.
Definition emax : Z := 1024.

Definition Number := spec_float.

(** The Number holding a counter. *)
Definition Number_of_N (n : N) : Number :=
  binary_normalize prec emax (Z.of_N n) 0 false.

(** The [/] operator. *)
Definition Number_divide (x y : Number) : Number := SFdiv prec emax x y.

Record RampUp := mkRampUp {
  rampSloc : N;
  rampComments : N;
  ratio : Number
}.

(** The callback of line 142: add the counts of one file to the totals. *)
Definition addFile (fileContent : string) (totals : SlocCount) : SlocCount :=
  let c := countSlocAndCommentsLimited fileContent in
  {| sloc := sloc totals + sloc c; comments := comments totals + comments c |}.

(** [calculateRampUpMetric] on the checkout at [localPath].  What
    [processReadme] computes is dropped by the source and left out. *)
Definition calculateRampUpMetric (localPath : list Entry) : RampUp :=
  let totals :=
    walkDirectoryLimited addFile localPath {| sloc := 0; comments := 0 |} in
  let totalSloc := sloc totals in
  let totalComments := comments totals in
  {| rampSloc := totalSloc;
     rampComments := totalComments;
     ratio := Number_divide (Number_of_N totalComments) (Number_of_N totalSloc) |}.

(** ** License compatibility (metrics.ts, lines 168-258) *)

Record LicenseResult := mkLicenseResult {
  score : N;
  details : string
}.

Definition compatibleLicenses : list string :=
  [ "LGPL-2.1"; "LGPL-3.0";
    "GPL-2.0"; "GPL-3.0";
    "MIT"; "BSD-2-Clause"; "BSD-3-Clause";
    "Apache-2.0"; "ISC"; "Unlicense" ].

Definition isCompatibleWithLGPLv2_1 (licenseText : string) : bool :=
  existsb
    (fun license =>
       includes (toLowerCase licenseText) (toLowerCase license)
       || includes (toLowerCase licenseText)
                   (replace (toLowerCase license) "-" " "))
    compatibleLicenses.

Definition isHash (c : ascii) : bool := Ascii.eqb c "#".

(** The longest prefix of characters of a class, and what follows it: a
    greedy [x*]. *)
Fixpoint skipWhile (f : ascii -> bool) (s : string) : string :=
  match s with
  | EmptyString => EmptyString
  | String c s' => if f c then skipWhile f s' else s
  end.

Fixpoint takeWhile (f : ascii -> bool) (s : string) : string :=
  match s with
  | EmptyString => EmptyString
  | String c s' => if f c then String c (takeWhile f s') else EmptyString
  end.

(** [/#+\s*License\s*([\s\S]*?)(?=#+|$)/i] tried at the start of [s]; the
    result is capture group 1.  The greedy runs [#+] and [\s*] never have
    to give a character back (what follows them cannot start with a
    character of their class), and the lazy group stops at the first [#]
    or at the end of the input. *)
Definition matchLicenseHeading (s : string) : option string :=
  match s with
  | String c s1 =>
      if isHash c then
        let s2 := skipWhile isSpace (skipWhile isHash s1) in
        if startsWith (toLowerCase s2) "license" then
          let s3 := skipWhile isSpace (drop 7 s2) in
          Some (takeWhile (fun c => negb (isHash c)) s3)
        else None
      else None
  | EmptyString => None
  end.

(** [content.match(licenseRegex)]: the leftmost position where the
    expression matches; [null] is [None]. *)
Fixpoint extractLicenseFromReadme (content : string) : option string :=
  match matchLicenseHeading content with
  | Some captured => Some (trim captured)
  | None =>
      match content with
      | EmptyString => None
      | String _ rest => extractLicenseFromReadme rest
      end
  end.

(** [x || ''] *)
Definition orEmpty (x : option string) : string :=
  match x with
  | Some s => s
  | None => EmptyString
  end.

Definition string_of_bool (b : bool) : string :=
  if b then "true" else "false".

Section License.

Variable w : World.

Definition licenseHeaders (token : string) : list (string * string) :=
  [ ("Accept", "application/vnd.github.v3+json");
    ("Authorization", ("token " ++ token)%string);
    ("User-Agent", "Your-App-Name") ].

Definition registryRequest (packageName : string) : Request :=
  {| url := NPM_REGISTRY_URL ++ packageName; params := []; headers := [] |}.

Definition licenseFileRequest (hs : list (string * string)) (repoPath : string) : Request :=
  {| url := GITHUB_API_URL ++ "/" ++ repoPath ++ "/contents/LICENSE";
     params := []; headers := hs |}.

Definition manifestRequest (hs : list (string * string)) (repoPath : string) : Request :=
  {| url := GITHUB_API_URL ++ "/" ++ repoPath ++ "/contents/package.json";
     params := []; headers := hs |}.

Definition readmeRequest (hs : list (string * string)) (repoPath : string) : Request :=
  {| url := GITHUB_API_URL ++ "/" ++ repoPath ++ "/readme";
     params := []; headers := hs |}.

(** Lines 182-198: the repository path, or the early [return] of
    line 194. *)
Definition resolveRepoPath (url : string) : IO (LicenseResult + string) :=
  if startsWith url "https://www.npmjs.com/package/" then
    let packageName := replace url "https://www.npmjs.com/package/" EmptyString in
    repository_url <- axios_get (registryEndpoint w) (registryRequest packageName) ;;
    match repository_url with
    | Some u =>
        if truthy u then
          ret (inr (replace (replace (replace (replace u
                      "git+https://github.com/" EmptyString)
                      "git://github.com/" EmptyString)
                      "https://github.com/" EmptyString)
                      ".git" EmptyString))
        else ret (inl {| score := 0;
                         details := "No GitHub repository found for npm package" |})
    | None => ret (inl {| score := 0;
                          details := "No GitHub repository found for npm package" |})
    end
  else ret (inr (replace url "https://github.com/" EmptyString)).

(** Lines 210-216: the manifest, inside the [catch] of the LICENSE step. *)
Definition licenseFromManifest (hs : list (string * string)) (repoPath : string) : IO string :=
  try_catch
    (text <- axios_get (contentsEndpoint w) (manifestRequest hs repoPath) ;;
     license <- lift (manifestLicense w text) ;;
     ret (orEmpty license))
    (fun _ =>
       console_write "package.json not found or does not contain license information" ;;
       ret EmptyString).

(** Lines 203-217: the LICENSE file, falling back to the manifest. *)
Definition licenseFromFile (hs : list (string * string)) (repoPath : string) : IO string :=
  try_catch
    (axios_get (contentsEndpoint w) (licenseFileRequest hs repoPath))
    (fun _ => licenseFromManifest hs repoPath).

(** Lines 220-224: the README, consulted while there is no license text. *)
Definition licenseFromReadme (hs : list (string * string)) (repoPath : string)
           (licenseInfo : string) : IO string :=
  if negb (truthy licenseInfo) then
    readmeContent <- axios_get (contentsEndpoint w) (readmeRequest hs repoPath) ;;
    ret (orEmpty (extractLicenseFromReadme readmeContent))
  else ret licenseInfo.

(** Lines 226-234. *)
Definition licenseVerdict (licenseInfo : string) : LicenseResult :=
  if truthy licenseInfo then
    let compatible := isCompatibleWithLGPLv2_1 licenseInfo in
    {| score := if compatible then 1 else 0;
       details := "License found: " ++ firstLine licenseInfo
                  ++ ". Compatible: " ++ string_of_bool compatible |}
  else {| score := 0; details := "No license information found" |}.

Definition checkLicenseCompatibility (url : string) : IO LicenseResult :=
  match GITHUB_TOKEN w with
  | None => ret {| score := 0; details := "GitHub token not set" |}
  | Some token =>
      if negb (truthy token)
      then ret {| score := 0; details := "GitHub token not set" |}
      else
        let hs := licenseHeaders token in
        try_catch
          (resolved <- resolveRepoPath url ;;
           match resolved with
           | inl early => ret early
           | inr repoPath =>
               licenseInfo <- licenseFromFile hs repoPath ;;
               licenseInfo <- licenseFromReadme hs repoPath licenseInfo ;;
               ret (licenseVerdict licenseInfo)
           end)
          (fun message =>
             console_write ("Error checking license: " ++ message) ;;
             ret {| score := 0;
                    details := "Error checking license: " ++ message |})
  end.

End License.

(** ** Vocabulary of the statements about the paginator *)

(** The requests for [n] consecutive pages starting at [page]. *)
Definition pageRequests (repoPath : string) (page : N) (n : nat) : list Request :=
  map (fun i => contributorsRequest repoPath (page + N.of_nat i)) (seq 0 n).

Definition fullPage (p : list Contributor) : Prop :=
  (PER_PAGE <= N.of_nat (List.length p))%N.

Definition shortPage (p : list Contributor) : Prop :=
  (N.of_nat (List.length p) < PER_PAGE)%N.

(** The endpoint serves [pages], one after the other, from [page] on. *)
Definition serves (w : World) (repoPath : string) (page : N)
           (pages : list (list Contributor)) : Prop :=
  forall i p, nth_error pages i = Some p ->
    contributorsEndpoint w (contributorsRequest repoPath (page + N.of_nat i))
    = Reply p.

(** [e] with the requests [rs] issued after it. *)
Definition issue (rs : list Request) (e : Effects) : Effects :=
  {| requests := requests e ++ rs; console := console e |}.

(** [e] with one more console line. *)
Definition logged (line : string) (e : Effects) : Effects :=
  {| requests := requests e; console := console e ++ [line] |}.

(** ** Sample worlds *)

Definition octocat : Contributor := {| login := "octocat"; contributions := 1 |}.

(** The [page] parameter of a contributors request. *)
Definition pageOf (r : Request) : N :=
  match params r with
  | [_; (_, page)] => page
  | _ => 0
  end.

(** No network at all. *)
Definition offline : World :=
  {| GITHUB_TOKEN := None;
     contributorsEndpoint := fun _ => Failed "Network Error";
     registryEndpoint := fun _ => Failed "Network Error";
     contentsEndpoint := fun _ => Failed "Network Error";
     manifestLicense := fun _ => Failed "Unexpected end of JSON input" |}.

(** A repository with 250 contributors: pages of 100, 100 and 50. *)
Definition repo250 : World :=
  {| GITHUB_TOKEN := GITHUB_TOKEN offline;
     contributorsEndpoint := fun r =>
       match pageOf r with
       | 1%N | 2%N => Reply (repeat octocat 100)
       | 3%N => Reply (repeat octocat 50)
       | _ => Reply []
       end;
     registryEndpoint := registryEndpoint offline;
     contentsEndpoint := contentsEndpoint offline;
     manifestLicense := manifestLicense offline |}.

(** The first page arrives, the second request is refused. *)
Definition rateLimited : World :=
  {| GITHUB_TOKEN := GITHUB_TOKEN offline;
     contributorsEndpoint := fun r =>
       match pageOf r with
       | 1%N => Reply (repeat octocat 100)
       | _ => Failed "Request failed with status code 403"
       end;
     registryEndpoint := registryEndpoint offline;
     contentsEndpoint := contentsEndpoint offline;
     manifestLicense := manifestLicense offline |}.

(** ** Vocabulary of the statements about license resolution *)

Section CascadeVocabulary.

Variable w : World.
Variable hs : list (string * string).
Variable repoPath : string.

(** The text each source yields, [None] when the step obtains none. *)
Definition nonEmpty (s : string) : option string :=
  if truthy s then Some s else None.

Definition licenseFileText : option string :=
  match contentsEndpoint w (licenseFileRequest hs repoPath) with
  | Reply text => nonEmpty text
  | Failed _ => None
  end.

Definition manifestText : option string :=
  match contentsEndpoint w (manifestRequest hs repoPath) with
  | Reply text =>
      match manifestLicense w text with
      | Reply (Some license) => nonEmpty license
      | _ => None
      end
  | Failed _ => None
  end.

Definition readmeText : option string :=
  match contentsEndpoint w (readmeRequest hs repoPath) with
  | Reply content =>
      match extractLicenseFromReadme content with
      | Some section => nonEmpty section
      | None => None
      end
  | Failed _ => None
  end.

(** The manifest answers and parses. *)
Definition manifestParsed : bool :=
  match contentsEndpoint w (manifestRequest hs repoPath) with
  | Reply text =>
      match manifestLicense w text with
      | Reply _ => true
      | Failed _ => false
      end
  | Failed _ => false
  end.

(** How a run ends once the README is the only source left, from the
    effects [e] accumulated so far. *)
Definition readmeOutcome (e : Effects) : Completion LicenseResult * Effects :=
  match contentsEndpoint w (readmeRequest hs repoPath) with
  | Reply content =>
      (Returned (licenseVerdict (orEmpty (extractLicenseFromReadme content))),
       issue [readmeRequest hs repoPath] e)
  | Failed message =>
      (Returned {| score := 0;
                   details := "Error checking license: " ++ message |},
       logged ("Error checking license: " ++ message)
              (issue [readmeRequest hs repoPath] e))
  end.

End CascadeVocabulary.

(** A repository with no LICENSE, no package.json and no README. *)
Definition bareRepo : World :=
  {| GITHUB_TOKEN := Some "ghp_token";
     contributorsEndpoint := contributorsEndpoint offline;
     registryEndpoint := registryEndpoint offline;
     contentsEndpoint := fun _ => Failed "Request failed with status code 404";
     manifestLicense := manifestLicense offline |}.

(** Lines joined by line feeds. *)
Definition unlines (ls : list string) : string :=
  String.concat (String LF EmptyString) ls.

Definition notFound {A : Type} : Response A :=
  Failed "Request failed with status code 404".

Definition sampleReadme : string :=
  unlines [ "# Demo"; EmptyString; "A small package."; EmptyString;
            "## License"; EmptyString; "Apache-2.0"; EmptyString;
            "## Contact"; "mail the authors" ].

(** No LICENSE file, no manifest; the README has a License section. *)
Definition readmeLicensed : World :=
  {| GITHUB_TOKEN := Some "ghp_token";
     contributorsEndpoint := contributorsEndpoint offline;
     registryEndpoint := registryEndpoint offline;
     contentsEndpoint := fun r =>
       if endsWith (url r) "/readme" then Reply sampleReadme else notFound;
     manifestLicense := manifestLicense offline |}.

(** A LICENSE file that is there but empty. *)
Definition emptyLicenseFile : World :=
  {| GITHUB_TOKEN := Some "ghp_token";
     contributorsEndpoint := contributorsEndpoint offline;
     registryEndpoint := registryEndpoint offline;
     contentsEndpoint := fun r =>
       if endsWith (url r) "/contents/LICENSE" then Reply EmptyString
       else if endsWith (url r) "/readme" then Reply sampleReadme
       else notFound;
     manifestLicense := manifestLicense offline |}.

Definition quote : string := String (ascii_of_N 34) EmptyString.

Definition sampleManifest : string :=
  "{ " ++ quote ++ "name" ++ quote ++ ": " ++ quote ++ "demo" ++ quote ++ " }".

(** No LICENSE file; a manifest that declares no license. *)
Definition manifestWithoutLicense : World :=
  {| GITHUB_TOKEN := Some "ghp_token";
     contributorsEndpoint := contributorsEndpoint offline;
     registryEndpoint := registryEndpoint offline;
     contentsEndpoint := fun r =>
       if endsWith (url r) "/contents/package.json" then Reply sampleManifest
       else if endsWith (url r) "/readme" then Reply sampleReadme
       else notFound;
     manifestLicense := fun text =>
       if String.eqb text sampleManifest then Reply None
       else Failed "Unexpected token in JSON" |}.

(** A LICENSE file that names its license with spaces. *)
Definition spacedBsd : World :=
  {| GITHUB_TOKEN := Some "ghp_token";
     contributorsEndpoint := contributorsEndpoint offline;
     registryEndpoint := registryEndpoint offline;
     contentsEndpoint := fun r =>
       if endsWith (url r) "/contents/LICENSE"
       then Reply (unlines [ "BSD 2 Clause License"; EmptyString;
                             "Copyright (c) the authors" ])
       else notFound;
     manifestLicense := manifestLicense offline |}.

(** ** The allow-list test as the specification words it *)

(** Every hyphen read as a space. *)
Fixpoint hyphensAsSpaces (s : string) : string :=
  match s with
  | EmptyString => EmptyString
  | String c s' =>
      String (if Ascii.eqb c "-" then " "%char else c) (hyphensAsSpaces s')
  end.

(** The text contains, without regard to case, a member of the allow-list
    as written or with its hyphens read as spaces. *)
Definition allowListedSpec (licenseText : string) : bool :=
  existsb
    (fun license =>
       includes (toLowerCase licenseText) (toLowerCase license)
       || includes (toLowerCase licenseText)
                   (hyphensAsSpaces (toLowerCase license)))
    compatibleLicenses.

(** ** Vocabulary of the statements about the ramp-up totals *)

(** The contents of the .ts and .js files of a checkout, in walk order. *)
Fixpoint filesOf (entry : Entry) : list string :=
  match entry with
  | Directory _ entries => flat_map filesOf entries
  | File name content =>
      if endsWith name ".ts" || endsWith name ".js" then [content] else []
  end.

Definition walkedFiles (dir : list Entry) : list string :=
  flat_map filesOf dir.

Definition sumN (l : list N) : N := fold_right N.add 0%N l.

(** A checkout whose only source file holds a comment. *)
Definition commentOnly : list Entry :=
  [ File "README.md" "# Demo";
    Directory "src" [ File "index.js" "// to be written" ] ].

(** A checkout without source files. *)
Definition noSources : list Entry :=
  [ File "README.md" "# Demo"; Directory "docs" [ File "guide.txt" "text" ] ].

(** A file of 60 code lines, 20 line comments and 20 blank lines. *)
Definition sixtyTwenty : list Entry :=
  [ Directory "lib"
      [ File "main.ts"
          (unlines (repeat "run();" 60 ++ repeat "// note" 20
                    ++ repeat EmptyString 20)%list) ] ].

From Stdlib Require Import Sorting.Permutation.

(** ** Vocabulary of the further statements *)

(** The loop variables of [countSlocAndCommentsLimited] after the lines
    [lines], started with zero counts outside a block comment. *)
Definition scanLines (lines : list string) : LineState :=
  fold_left countLine lines
    {| counted := {| sloc := 0; comments := 0 |}; inBlockComment := false |}.

(** The trimmed line is not empty. *)
Definition nonBlank (line : string) : bool :=
  (0 <? String.length (trim line))%nat.

(** The trimmed line starts a line comment or a block comment. *)
Definition commentOpener (line : string) : bool :=
  startsWith (trim line) "//" || startsWith (trim line) "/*".



(** A server that answers every contributors request with a full page. *)
Definition endless : World :=
  {| GITHUB_TOKEN := GITHUB_TOKEN offline;
     contributorsEndpoint := fun _ => Reply (repeat octocat 100);
     registryEndpoint := registryEndpoint offline;
     contentsEndpoint := contentsEndpoint offline;
     manifestLicense := manifestLicense offline |}.

(** The request sequences of the license cascade, see [license_cascade]. *)
Definition cascadeRequests (hs : list (string * string)) (repoPath : string)
  : list (list Request) :=
  [ [ licenseFileRequest hs repoPath ];
    [ licenseFileRequest hs repoPath; manifestRequest hs repoPath ];
    [ licenseFileRequest hs repoPath; readmeRequest hs repoPath ];
    [ licenseFileRequest hs repoPath; manifestRequest hs repoPath;
      readmeRequest hs repoPath ] ].

(** The result of the outer [catch] of [checkLicenseCompatibility]. *)
Definition errorResult (message : string) : LicenseResult :=
  {| score := 0; details := "Error checking license: " ++ message |}.

(** Lines 188-192: the repository path read off [repository.url]. *)
Definition repoPathOfRepositoryUrl (u : string) : string :=
  replace (replace (replace (replace u
    "git+https://github.com/" EmptyString)
    "git://github.com/" EmptyString)
    "https://github.com/" EmptyString)
    ".git" EmptyString.

(** The package name of an npm package page URL (line 184). *)
Definition packageNameOf (url : string) : string :=
  replace url "https://www.npmjs.com/package/" EmptyString.

Definition noRepositoryResult : LicenseResult :=
  {| score := 0; details := "No GitHub repository found for npm package" |}.

(** A request to the package registry: no headers. *)
Definition toRegistry (r : Request) : Prop :=
  headers r = [] /\ startsWith (url r) NPM_REGISTRY_URL = true.

(** A request to the hosting API that carries the token. *)
Definition authorised (token : string) (r : Request) : Prop :=
  headers r = licenseHeaders token
  /\ startsWith (url r) "https://api.github.com/repos/" = true.

(** Registry metadata without a repository. *)
Definition unpublishedSource : World :=
  {| GITHUB_TOKEN := Some "ghp_token";
     contributorsEndpoint := contributorsEndpoint offline;
     registryEndpoint := fun _ => Reply None;
     contentsEndpoint := contentsEndpoint offline;
     manifestLicense := manifestLicense offline |}.

(** Registry metadata of a package kept in a repository whose name holds
    [.git] before its end. *)
Definition pagesPackage : World :=
  {| GITHUB_TOKEN := Some "ghp_token";
     contributorsEndpoint := contributorsEndpoint offline;
     registryEndpoint := fun _ =>
       Reply (Some "git+https://github.com/octocat/octocat.github.io.git");
     contentsEndpoint := contentsEndpoint offline;
     manifestLicense := manifestLicense offline |}.

(** Every character of [s] is of the class [f]. *)
Fixpoint allChars (f : ascii -> bool) (s : string) : bool :=
  match s with
  | EmptyString => true
  | String c s' => f c && allChars f s'
  end.

(** [s] holds no [#]. *)
Definition noHash (s : string) : bool :=
  allChars (fun c => negb (isHash c)) s.

(** [s] is empty or starts with [#]: where a section captured by
    [extractLicenseFromReadme] ends. *)
Definition endOfSection (s : string) : bool :=
  match s with
  | EmptyString => true
  | String c _ => isHash c
  end.

Definition CR : ascii := ascii_of_N 13.

(** The same text with Windows line endings: a carriage return in front
    of every line feed. *)
Fixpoint withCarriageReturns (s : string) : string :=
  match s with
  | EmptyString => EmptyString
  | String c s' =>
      if Ascii.eqb c LF
      then String CR (String LF (withCarriageReturns s'))
      else String c (withCarriageReturns s')
  end.

(** A line, or that line followed by a carriage return. *)
Definition sameLine (l l' : string) : Prop :=
  l = l' \/ l = (l' ++ String CR EmptyString)%string.

(** The words one of which every text that passes the allow-list test
    contains, in lower case. *)
Definition licenseWords : list string :=
  [ "gpl"; "mit"; "bsd"; "apache"; "isc"; "unlicense" ].

(** A repository whose LICENSE file is the MIT license. *)
Definition mitLicensed : World :=
  {| GITHUB_TOKEN := Some "ghp_token";
     contributorsEndpoint := contributorsEndpoint offline;
     registryEndpoint := registryEndpoint offline;
     contentsEndpoint := fun r =>
       if endsWith (url r) "/contents/LICENSE"
       then Reply (unlines [ "The MIT License (MIT)"; EmptyString;
                             "Copyright (c) the authors" ])
       else notFound;
     manifestLicense := manifestLicense offline |}.

(** * Properties *)

(** ** The bus-factor step function *)

Example busFactorScore_table :
  map busFactorScore [1; 2; 0; 4; 5; 256; 257]%N
  = [0.1; 0.2; 0.3; 0.3; 0.4; 0.9; 1.0]%Q.
Proof. reflexivity. Qed.

(** Turn every threshold test of [busFactorScore] into a linear fact. *)
Ltac thresholds :=
  unfold busFactorScore;
  repeat match goal with
         | |- context [(?a =? ?b)%N] =>
             destruct (N.eqb_spec a b)
         | |- context [(?a <=? ?b)%N] =>
             destruct (N.leb_spec a b)
         end.

(** C1. The score of a contributor count is read off the fixed table:
    1 gives 0.1, 2 gives 0.2, anything else up to 4 gives 0.3 (so 0 gives
    0.3), then up to 8, 16, 32, 64, 128 and 256 give 0.4 to 0.9, and a
    larger count gives 1.0. *)
Theorem busFactorScore_step (c : N) :
  (c = 1%N -> busFactorScore c = 0.1%Q)
  /\ (c = 2%N -> busFactorScore c = 0.2%Q)
  /\ (c <> 1%N -> c <> 2%N -> (c <= 4)%N -> busFactorScore c = 0.3%Q)
  /\ ((4 < c <= 8)%N -> busFactorScore c = 0.4%Q)
  /\ ((8 < c <= 16)%N -> busFactorScore c = 0.5%Q)
  /\ ((16 < c <= 32)%N -> busFactorScore c = 0.6%Q)
  /\ ((32 < c <= 64)%N -> busFactorScore c = 0.7%Q)
  /\ ((64 < c <= 128)%N -> busFactorScore c = 0.8%Q)
  /\ ((128 < c <= 256)%N -> busFactorScore c = 0.9%Q)
  /\ ((256 < c)%N -> busFactorScore c = 1.0%Q)
  /\ busFactorScore 0 = 0.3%Q.
Proof.
  repeat split; intros; thresholds; try reflexivity; lia.
Qed.

Lemma busFactorScore_step_witness :
  busFactorScore 1 = 0.1%Q /\ busFactorScore 2 = 0.2%Q
  /\ busFactorScore 4 = 0.3%Q /\ busFactorScore 5 = 0.4%Q
  /\ busFactorScore 256 = 0.9%Q /\ busFactorScore 257 = 1.0%Q.
Proof.
  split; [apply (busFactorScore_step 1); reflexivity|].
  split; [apply (busFactorScore_step 2); reflexivity|].
  split; [apply (busFactorScore_step 4); lia|].
  split; [apply (busFactorScore_step 5); lia|].
  split; [apply (busFactorScore_step 256); lia|].
  apply (busFactorScore_step 257); lia.
Defined.

(** C10. On positive counts the score never decreases when the count
    grows; count 0 is the exception, it scores above count 1. *)
Theorem busFactorScore_monotone (c1 c2 : N) :
  (1 <= c1)%N -> (c1 <= c2)%N ->
  (busFactorScore c1 <= busFactorScore c2)%Q
  /\ ~ (busFactorScore 0 <= busFactorScore 1)%Q.
Proof.
  intros H1 H12. split.
  - thresholds; try lia; apply Qle_bool_imp_le; reflexivity.
  - intro H. apply Qle_bool_iff in H. discriminate H.
Qed.

Lemma busFactorScore_monotone_witness :
  (busFactorScore 2 <= busFactorScore 300)%Q
  /\ ~ (busFactorScore 0 <= busFactorScore 1)%Q.
Proof. apply (busFactorScore_monotone 2 300); lia. Defined.

(** ** The contributor paginator *)



Section Pagination.

Variable w : World.
Variable repoPath : string.

Lemma issue_nil e : issue [] e = e.
Proof. destruct e; unfold issue; simpl. now rewrite app_nil_r. Qed.

Lemma issue_issue rs rs' e : issue rs' (issue rs e) = issue (rs ++ rs') e.
Proof. unfold issue; simpl. now rewrite app_assoc. Qed.

Lemma pageRequests_S page n :
  pageRequests repoPath page (S n)
  = contributorsRequest repoPath page :: pageRequests repoPath (page + 1) n.
Proof.
  unfold pageRequests. simpl. rewrite N.add_0_r. f_equal.
  rewrite <- seq_shift, map_map. apply map_ext. intros i.
  f_equal. lia.
Qed.

Lemma serves_tail page p pages :
  serves w repoPath page (p :: pages) -> serves w repoPath (page + 1) pages.
Proof.
  intros H i q Hq. specialize (H (S i) q Hq).
  replace (page + 1 + N.of_nat i)%N with (page + N.of_nat (S i))%N by lia.
  exact H.
Qed.

Lemma serves_head page p pages :
  serves w repoPath page (p :: pages) ->
  contributorsEndpoint w (contributorsRequest repoPath page) = Reply p.
Proof.
  intros H. specialize (H 0%nat p eq_refl). now rewrite N.add_0_r in H.
Qed.

Lemma serves_app page full rest :
  serves w repoPath page (full ++ rest) ->
  serves w repoPath page full
  /\ serves w repoPath (page + N.of_nat (List.length full)) rest.
Proof.
  intros H. split.
  - intros i p Hp. apply H. rewrite nth_error_app1; [exact Hp|].
    apply nth_error_Some. congruence.
  - intros i p Hp.
    replace (page + N.of_nat (List.length full) + N.of_nat i)%N
      with (page + N.of_nat (List.length full + i))%N by lia.
    apply H. rewrite nth_error_app2 by lia.
    now replace (List.length full + i - List.length full)%nat with i by lia.
Qed.

Lemma pageRequests_snoc page n :
  pageRequests repoPath page n
  ++ [contributorsRequest repoPath (page + N.of_nat n)]
  = pageRequests repoPath page (S n).
Proof. unfold pageRequests. now rewrite seq_S, map_app. Qed.

(** While pages are full the loop goes round: one request per page, the
    lengths added up, the page number advanced. *)
Lemma contributorPages_full (full : list (list Contributor)) :
  forall fuel total page e,
    Forall fullPage full ->
    serves w repoPath page full ->
    contributorPages w (List.length full + fuel) repoPath total page e
    = contributorPages w fuel repoPath
        (total + N.of_nat (List.length (List.concat full)))
        (page + N.of_nat (List.length full))
        (issue (pageRequests repoPath page (List.length full)) e).
Proof.
  induction full as [|p full IH]; intros fuel total page e Hfull Hserves.
  - simpl. now rewrite issue_nil, !N.add_0_r.
  - inversion Hfull as [|? ? Hp Hrest]; subst.
    cbn [List.length Nat.add contributorPages].
    unfold bind at 1. unfold axios_get at 1.
    rewrite (serves_head _ _ _ Hserves).
    unfold fullPage in Hp. apply N.ltb_ge in Hp. rewrite Hp.
    rewrite (IH fuel _ (page + 1)%N _ Hrest (serves_tail _ _ _ Hserves)).
    rewrite pageRequests_S.
    cbn [List.concat]. rewrite length_app.
    f_equal; try lia.
    unfold issue; simpl. now rewrite <- app_assoc.
Qed.

(** A short page ends the loop. *)
Lemma contributorPages_short fuel total page last e :
  shortPage last ->
  contributorsEndpoint w (contributorsRequest repoPath page) = Reply last ->
  contributorPages w (S fuel) repoPath total page e
  = (Returned (total + N.of_nat (List.length last))%N,
     issue [contributorsRequest repoPath page] e).
Proof.
  intros Hshort Hreply. cbn [contributorPages].
  unfold bind, axios_get. rewrite Hreply.
  unfold shortPage in Hshort. apply N.ltb_lt in Hshort. now rewrite Hshort.
Qed.

(** A failed request ends the loop with the error of the request. *)
Lemma contributorPages_failed fuel total page message e :
  contributorsEndpoint w (contributorsRequest repoPath page) = Failed message ->
  contributorPages w (S fuel) repoPath total page e
  = (Thrown message, issue [contributorsRequest repoPath page] e).
Proof.
  intros Hfail. cbn [contributorPages].
  unfold bind, axios_get. now rewrite Hfail.
Qed.

End Pagination.

(** C4. Pagination starts at page 1 with [per_page] 100 and asks for the
    pages one after the other; each page's length is added to the total;
    the first page shorter than 100 entries (an empty one too) is the
    last one requested.  With full pages [full] followed by the short
    page [last], the total is the number of entries of all of them, and
    exactly one request per page was issued. *)
Theorem contributor_pagination (w : World) (url : string)
        (full : list (list Contributor)) (last : list Contributor)
        (fuel : nat) (e : Effects) :
  let repoPath := replace url "https://github.com/" EmptyString in
  let pages := full ++ [last] in
  let total := N.of_nat (List.length (List.concat pages)) in
  let after :=
    {| requests :=
         requests e
         ++ map (fun i =>
                   {| url := GITHUB_API_URL ++ "/" ++ repoPath ++ "/contributors";
                      params := [("per_page", 100%N); ("page", (1 + N.of_nat i)%N)];
                      headers := [("Accept", "application/vnd.github.v3+json")] |})
                (seq 0 (List.length pages));
       console := console e |} in
  Forall fullPage full ->
  shortPage last ->
  serves w repoPath 1 pages ->
  (List.length pages <= fuel)%nat ->
  contributorPages w fuel repoPath 0 1 e = (Returned total, after)
  /\ getBusFactor w fuel url e = (Returned (busFactorScore total), after).
Proof.
  intros repoPath pages total after Hfull Hshort Hserves Hfuel.
  assert (Hloop : contributorPages w fuel repoPath 0 1 e = (Returned total, after)).
  { change after with (issue (pageRequests repoPath 1 (List.length pages)) e).
    subst pages total. rewrite length_app in Hfuel |- *. simpl in Hfuel.
    destruct (serves_app _ _ _ _ _ Hserves) as [Hs1 Hs2].
    replace fuel with (List.length full + S (fuel - List.length full - 1))%nat by lia.
    rewrite (contributorPages_full w repoPath full _ _ _ _ Hfull Hs1).
    rewrite (contributorPages_short w repoPath _ _ _ last);
      [|exact Hshort|exact (serves_head w repoPath _ last [] Hs2)].
    rewrite issue_issue, pageRequests_snoc.
    rewrite concat_app, length_app. cbn [List.concat List.length].
    rewrite app_nil_r, Nat.add_1_r.
    f_equal. f_equal. lia. }
  split; [exact Hloop|].
  unfold getBusFactor, try_catch, bind. fold repoPath. now rewrite Hloop.
Qed.

Lemma contributor_pagination_witness :
  contributorPages repo250 3 "octocat/hello" 0 1 noEffects
  = (Returned 250%N,
     {| requests :=
          [ contributorsRequest "octocat/hello" 1;
            contributorsRequest "octocat/hello" 2;
            contributorsRequest "octocat/hello" 3 ];
        console := [] |})
  /\ fst (getBusFactor repo250 3 "https://github.com/octocat/hello" noEffects)
     = Returned 0.9%Q
  /\ List.length
       (requests (snd (getBusFactor repo250 3 "https://github.com/octocat/hello"
                                    noEffects))) = 3%nat.
Proof.
  assert (Hfull : Forall fullPage [repeat octocat 100; repeat octocat 100]).
  { repeat constructor; vm_compute; discriminate. }
  assert (Hshort : shortPage (repeat octocat 50)) by reflexivity.
  assert (Hserves : serves repo250 "octocat/hello" 1
                      ([repeat octocat 100; repeat octocat 100]
                       ++ [repeat octocat 50])).
  { intros [|[|[|[|i]]]] p Hp; simpl in Hp; try discriminate;
      injection Hp as <-; reflexivity. }
  destruct (contributor_pagination repo250 "https://github.com/octocat/hello"
              [repeat octocat 100; repeat octocat 100] (repeat octocat 50)
              3 noEffects Hfull Hshort Hserves (le_n 3)) as [Hloop Hrun].
  split; [exact Hloop|].
  rewrite Hrun. split; reflexivity.
Defined.

(** C6. When a contributors request fails, whatever the number of full
    pages fetched before it, [getBusFactor] returns -1 after writing the
    error to the console; and no run of [getBusFactor] ends in an
    exception. *)
Theorem getBusFactor_failure (w : World) (url : string)
        (full : list (list Contributor)) (message : string)
        (fuel : nat) (e : Effects) :
  let repoPath := replace url "https://github.com/" EmptyString in
  Forall fullPage full ->
  serves w repoPath 1 full ->
  contributorsEndpoint w
    (contributorsRequest repoPath (1 + N.of_nat (List.length full)))
  = Failed message ->
  (List.length full < fuel)%nat ->
  getBusFactor w fuel url e
  = (Returned (-1)%Q,
     logged ("Error fetching contributors for GitHub repo " ++ url ++ ": "
             ++ message)
            (issue (pageRequests repoPath 1 (S (List.length full))) e))
  /\ (forall fuel' url' e' thrown,
         fst (getBusFactor w fuel' url' e') <> Thrown thrown).
Proof.
  intros repoPath Hfull Hserves Hfail Hfuel. split.
  - unfold getBusFactor, try_catch. fold repoPath. unfold bind at 1.
    replace fuel with (List.length full + S (fuel - List.length full - 1))%nat by lia.
    rewrite (contributorPages_full w repoPath full _ _ _ _ Hfull Hserves).
    rewrite (contributorPages_failed w repoPath _ _ _ message _ Hfail).
    rewrite issue_issue, pageRequests_snoc. reflexivity.
  - intros fuel' url' e' thrown. unfold getBusFactor, try_catch.
    destruct (bind _ _ e') as [[v|m|] e'']; simpl; discriminate.
Qed.

Lemma getBusFactor_failure_witness :
  getBusFactor rateLimited 5 "https://github.com/octocat/hello" noEffects
  = (Returned (-1)%Q,
     {| requests :=
          [ contributorsRequest "octocat/hello" 1;
            contributorsRequest "octocat/hello" 2 ];
        console :=
          [ "Error fetching contributors for GitHub repo https://github.com/octocat/hello: Request failed with status code 403" ] |}).
Proof.
  assert (Hfull : Forall fullPage [repeat octocat 100]).
  { repeat constructor; vm_compute; discriminate. }
  assert (Hserves : serves rateLimited "octocat/hello" 1 [repeat octocat 100]).
  { intros [|[|i]] p Hp; simpl in Hp; try discriminate;
      injection Hp as <-; reflexivity. }
  exact (proj1 (getBusFactor_failure rateLimited
                  "https://github.com/octocat/hello" [repeat octocat 100]
                  "Request failed with status code 403" 5 noEffects
                  Hfull Hserves eq_refl (le_S _ _ (le_S _ _ (le_S _ _ (le_n 2)))))).
Defined.

(** ** License resolution *)

Lemma try_catch_bind_returned {A B : Type} (m : IO A) (k : A -> IO B)
      (h : string -> IO B) (e e' : Effects) (a : A) :
  m e = (Returned a, e') ->
  try_catch (bind m k) h e = try_catch (k a) h e'.
Proof. intros H. unfold try_catch, bind. now rewrite H. Qed.

Lemma truthy_false (s : string) : truthy s = false -> s = EmptyString.
Proof. destruct s; [reflexivity|discriminate]. Qed.

Lemma nonEmpty_Some (s t : string) :
  nonEmpty s = Some t -> s = t /\ truthy t = true.
Proof.
  unfold nonEmpty. destruct (truthy s) eqn:E; [|discriminate].
  intros H. injection H as <-. now split.
Qed.

Lemma nonEmpty_None (s : string) : nonEmpty s = None -> s = EmptyString.
Proof.
  unfold nonEmpty. destruct (truthy s) eqn:E; [discriminate|].
  intros _. now apply truthy_false.
Qed.

Section Cascade.

Variable w : World.
Variable token : string.
Hypothesis token_set : GITHUB_TOKEN w = Some token.
Hypothesis token_truthy : truthy token = true.

Variable url repoPath : string.
Variable e e1 : Effects.
Hypothesis resolved : resolveRepoPath w url e = (Returned (inr repoPath), e1).

Let hs := licenseHeaders token.
Let file := licenseFileRequest hs repoPath.
Let manifest := manifestRequest hs repoPath.
Let readme := readmeRequest hs repoPath.

(** The run, once the repository path is known. *)
Lemma checkLicenseCompatibility_resolved :
  checkLicenseCompatibility w url e
  = try_catch
      (licenseInfo <- licenseFromFile w hs repoPath ;;
       licenseInfo <- licenseFromReadme w hs repoPath licenseInfo ;;
       ret (licenseVerdict licenseInfo))
      (fun message =>
         console_write ("Error checking license: " ++ message) ;;
         ret {| score := 0; details := "Error checking license: " ++ message |})
      e1.
Proof.
  unfold checkLicenseCompatibility. rewrite token_set, token_truthy.
  cbn [negb]. fold hs. unfold try_catch. unfold bind at 1. cbv beta.
  rewrite resolved. reflexivity.
Qed.

(** From the README on. *)
Lemma readme_step (e2 : Effects) :
  try_catch
    (licenseInfo <- licenseFromReadme w hs repoPath EmptyString ;;
     ret (licenseVerdict licenseInfo))
    (fun message =>
       console_write ("Error checking license: " ++ message) ;;
       ret {| score := 0; details := "Error checking license: " ++ message |})
    e2
  = readmeOutcome w hs repoPath e2.
Proof.
  unfold readmeOutcome, try_catch, bind, licenseFromReadme, axios_get, ret,
    console_write; simpl.
  destruct (contentsEndpoint w (readmeRequest hs repoPath)); reflexivity.
Qed.

(** The LICENSE step. *)
Lemma licenseFromFile_reply (text : string) (e2 : Effects) :
  contentsEndpoint w file = Reply text ->
  licenseFromFile w hs repoPath e2 = (Returned text, issue [file] e2).
Proof.
  intros H. unfold licenseFromFile, try_catch, axios_get.
  fold file. now rewrite H.
Qed.

Lemma licenseFromFile_failed (message : string) (e2 : Effects) :
  contentsEndpoint w file = Failed message ->
  licenseFromFile w hs repoPath e2
  = licenseFromManifest w hs repoPath (issue [file] e2).
Proof.
  intros H. unfold licenseFromFile, try_catch, axios_get.
  fold file. now rewrite H.
Qed.

(** The manifest step never throws: it yields the declared license or the
    empty string, and reports on the console when it could not read one. *)
Lemma licenseFromManifest_run (e2 : Effects) :
  licenseFromManifest w hs repoPath e2
  = (Returned (orEmpty (manifestText w hs repoPath)),
     if manifestParsed w hs repoPath
     then issue [manifest] e2
     else logged "package.json not found or does not contain license information"
                 (issue [manifest] e2)).
Proof.
  unfold licenseFromManifest, manifestText, manifestParsed, try_catch, bind,
    axios_get, lift, ret, throw, console_write. fold manifest.
  destruct (contentsEndpoint w manifest) as [m|text]; [reflexivity|].
  destruct (manifestLicense w text) as [m|[license|]]; try reflexivity.
  unfold nonEmpty. destruct license; reflexivity.
Qed.

(** With license text in hand the README is left alone. *)
Lemma verdict_step (text : string) (e2 : Effects) :
  truthy text = true ->
  try_catch
    (licenseInfo <- licenseFromReadme w hs repoPath text ;;
     ret (licenseVerdict licenseInfo))
    (fun message =>
       console_write ("Error checking license: " ++ message) ;;
       ret {| score := 0; details := "Error checking license: " ++ message |})
    e2
  = (Returned (licenseVerdict text), e2).
Proof.
  intros H. unfold try_catch, bind, licenseFromReadme. now rewrite H.
Qed.

Lemma path_file (text : string) :
  contentsEndpoint w file = Reply text ->
  truthy text = true ->
  checkLicenseCompatibility w url e
  = (Returned (licenseVerdict text), issue [file] e1).
Proof.
  intros Hfile Htext. rewrite checkLicenseCompatibility_resolved.
  rewrite (try_catch_bind_returned _ _ _ _ _ _ (licenseFromFile_reply _ _ Hfile)).
  now apply verdict_step.
Qed.

Lemma path_file_empty :
  contentsEndpoint w file = Reply EmptyString ->
  checkLicenseCompatibility w url e
  = readmeOutcome w hs repoPath (issue [file] e1).
Proof.
  intros Hfile. rewrite checkLicenseCompatibility_resolved.
  rewrite (try_catch_bind_returned _ _ _ _ _ _ (licenseFromFile_reply _ _ Hfile)).
  apply readme_step.
Qed.

Lemma path_manifest (message license : string) :
  contentsEndpoint w file = Failed message ->
  manifestText w hs repoPath = Some license ->
  checkLicenseCompatibility w url e
  = (Returned (licenseVerdict license), issue [file; manifest] e1).
Proof.
  intros Hfile Hmanifest. rewrite checkLicenseCompatibility_resolved.
  assert (Hparsed : manifestParsed w hs repoPath = true).
  { unfold manifestText in Hmanifest. unfold manifestParsed.
    destruct (contentsEndpoint w (manifestRequest hs repoPath)); [discriminate|].
    destruct (manifestLicense w data); [discriminate|reflexivity]. }
  assert (Htruthy : truthy license = true).
  { unfold manifestText in Hmanifest.
    destruct (contentsEndpoint w (manifestRequest hs repoPath)); [discriminate|].
    destruct (manifestLicense w data) as [|[l|]]; try discriminate.
    now apply nonEmpty_Some in Hmanifest. }
  erewrite try_catch_bind_returned.
  2:{ rewrite (licenseFromFile_failed _ _ Hfile), licenseFromManifest_run.
      rewrite Hmanifest, Hparsed. reflexivity. }
  rewrite issue_issue. now apply verdict_step.
Qed.

Lemma path_manifest_nothing (message : string) :
  contentsEndpoint w file = Failed message ->
  manifestText w hs repoPath = None ->
  checkLicenseCompatibility w url e
  = readmeOutcome w hs repoPath
      (if manifestParsed w hs repoPath
       then issue [file; manifest] e1
       else logged "package.json not found or does not contain license information"
                   (issue [file; manifest] e1)).
Proof.
  intros Hfile Hmanifest. rewrite checkLicenseCompatibility_resolved.
  erewrite try_catch_bind_returned.
  2:{ rewrite (licenseFromFile_failed _ _ Hfile), licenseFromManifest_run.
      rewrite Hmanifest. reflexivity. }
  rewrite issue_issue. apply readme_step.
Qed.

End Cascade.

Lemma readmeOutcome_requests (w : World) (hs : list (string * string))
      (repoPath : string) (e : Effects) :
  requests (snd (readmeOutcome w hs repoPath e))
  = requests e ++ [readmeRequest hs repoPath].
Proof.
  unfold readmeOutcome.
  destruct (contentsEndpoint w (readmeRequest hs repoPath)); reflexivity.
Qed.

Example extractLicenseFromReadme_sample :
  extractLicenseFromReadme sampleReadme = Some "Apache-2.0".
Proof. reflexivity. Qed.

Example extractLicenseFromReadme_none :
  extractLicenseFromReadme (unlines ["# Demo"; "Licensed under MIT"]) = None.
Proof. reflexivity. Qed.

Example extractLicenseFromReadme_case :
  extractLicenseFromReadme (unlines ["###   LICENSE"; "  MIT  "; "#"; "x"])
  = Some "MIT".
Proof. reflexivity. Qed.

(** C5. Without a token (none, or an empty one) the license check returns
    score 0 with details 'GitHub token not set' at once: no request is
    issued, nothing is written, whatever the URL. *)
Theorem no_token_short_circuits (w : World) (url : string) (e : Effects) :
  GITHUB_TOKEN w = None \/ GITHUB_TOKEN w = Some EmptyString ->
  checkLicenseCompatibility w url e
  = (Returned {| score := 0; details := "GitHub token not set" |}, e).
Proof.
  intros [H|H]; unfold checkLicenseCompatibility; rewrite H; reflexivity.
Qed.

Lemma no_token_short_circuits_witness :
  checkLicenseCompatibility offline "https://github.com/octocat/hello" noEffects
  = (Returned {| score := 0; details := "GitHub token not set" |},
     {| requests := []; console := [] |}).
Proof.
  apply (no_token_short_circuits offline "https://github.com/octocat/hello"
           noEffects).
  left. reflexivity.
Defined.

(** C2, as the code has it.  With a token set and the repository path
    known, the sources are asked in the order LICENSE file, package.json,
    README, and the first one that yields text ends the resolution: a
    non-empty LICENSE file is the only request; the manifest is asked
    when the LICENSE request fails, and its non-empty license field ends
    the resolution.  Otherwise the README is fetched: the text of its
    License section decides, a README without such text gives score 0
    with 'No license information found', and a README request that fails
    gives score 0 with 'Error checking license: ' and the error. *)
Theorem license_cascade (w : World) (token url repoPath : string)
        (e e1 : Effects) :
  GITHUB_TOKEN w = Some token ->
  truthy token = true ->
  resolveRepoPath w url e = (Returned (inr repoPath), e1) ->
  let hs := licenseHeaders token in
  let file := licenseFileRequest hs repoPath in
  let manifest := manifestRequest hs repoPath in
  let readme := readmeRequest hs repoPath in
  let run := checkLicenseCompatibility w url e in
  (exists rs,
      requests (snd run) = requests e1 ++ rs
      /\ (rs = [file] \/ rs = [file; manifest]
          \/ rs = [file; readme] \/ rs = [file; manifest; readme]))
  /\ (forall text,
         licenseFileText w hs repoPath = Some text ->
         run = (Returned (licenseVerdict text), issue [file] e1))
  /\ (forall message license,
         contentsEndpoint w file = Failed message ->
         manifestText w hs repoPath = Some license ->
         run = (Returned (licenseVerdict license), issue [file; manifest] e1))
  /\ (contentsEndpoint w file = Reply EmptyString
      \/ (exists message, contentsEndpoint w file = Failed message)
         /\ manifestText w hs repoPath = None ->
      In readme (requests (snd run))
      /\ (forall content,
             contentsEndpoint w readme = Reply content ->
             fst run
             = Returned (licenseVerdict
                           (orEmpty (extractLicenseFromReadme content))))
      /\ (forall content,
             contentsEndpoint w readme = Reply content ->
             readmeText w hs repoPath = None ->
             fst run
             = Returned {| score := 0;
                           details := "No license information found" |})
      /\ (forall message,
             contentsEndpoint w readme = Failed message ->
             fst run
             = Returned {| score := 0;
                           details := "Error checking license: " ++ message |})).
Proof.
  intros Htok Htruthy Hres hs file manifest readme run.
  assert (Hreadme : forall e2,
             run = readmeOutcome w hs repoPath e2 ->
             In readme (requests (snd run))
             /\ (forall content,
                    contentsEndpoint w readme = Reply content ->
                    fst run
                    = Returned (licenseVerdict
                                  (orEmpty (extractLicenseFromReadme content))))
             /\ (forall content,
                    contentsEndpoint w readme = Reply content ->
                    readmeText w hs repoPath = None ->
                    fst run
                    = Returned {| score := 0;
                                  details := "No license information found" |})
             /\ (forall message,
                    contentsEndpoint w readme = Failed message ->
                    fst run
                    = Returned {| score := 0;
                                  details := "Error checking license: " ++ message |})).
  { intros e2 ->. split; [|split; [|split]].
    - rewrite readmeOutcome_requests. apply in_or_app. right. now left.
    - intros content Hc. unfold readmeOutcome. fold readme. now rewrite Hc.
    - intros content Hc Hnone. unfold readmeOutcome. fold readme. rewrite Hc.
      unfold readmeText in Hnone. fold readme in Hnone. rewrite Hc in Hnone.
      cbn [fst]. f_equal.
      destruct (extractLicenseFromReadme content) as [section|]; [|reflexivity].
      apply nonEmpty_None in Hnone. now subst section.
    - intros message Hm. unfold readmeOutcome. fold readme. now rewrite Hm. }
  split; [|split; [|split]].
  - destruct (contentsEndpoint w file) as [message|text] eqn:Hfile.
    + destruct (manifestText w hs repoPath) as [license|] eqn:Hman.
      * exists [file; manifest]. split; [|tauto].
        unfold run.
        now rewrite (path_manifest w token Htok Htruthy url repoPath e e1 Hres
                       message license Hfile Hman).
      * exists [file; manifest; readme]. split; [|tauto].
        unfold run.
        rewrite (path_manifest_nothing w token Htok Htruthy url repoPath e e1
                   Hres message Hfile Hman).
        rewrite readmeOutcome_requests.
        destruct (manifestParsed w (licenseHeaders token) repoPath);
          cbn [issue logged requests]; now rewrite <- app_assoc.
    + destruct (truthy text) eqn:Htext.
      * exists [file]. split; [|tauto]. unfold run.
        now rewrite (path_file w token Htok Htruthy url repoPath e e1 Hres
                       text Hfile Htext).
      * exists [file; readme]. split; [|tauto]. unfold run.
        apply truthy_false in Htext. subst text.
        rewrite (path_file_empty w token Htok Htruthy url repoPath e e1 Hres
                   Hfile).
        rewrite readmeOutcome_requests.
        cbn [issue requests]. now rewrite <- app_assoc.
  - intros text Htext. unfold licenseFileText in Htext. fold file in Htext.
    destruct (contentsEndpoint w file) as [message|text'] eqn:Hfile;
      [discriminate|].
    apply nonEmpty_Some in Htext. destruct Htext as [-> Htext].
    exact (path_file w token Htok Htruthy url repoPath e e1 Hres text Hfile Htext).
  - intros message license Hfile Hman.
    exact (path_manifest w token Htok Htruthy url repoPath e e1 Hres
             message license Hfile Hman).
  - intros [Hfile|[[message Hfile] Hman]].
    + apply (Hreadme (issue [file] e1)).
      exact (path_file_empty w token Htok Htruthy url repoPath e e1 Hres Hfile).
    + eapply Hreadme.
      exact (path_manifest_nothing w token Htok Htruthy url repoPath e e1 Hres
               message Hfile Hman).
Qed.

Lemma license_cascade_witness :
  fst (checkLicenseCompatibility readmeLicensed
         "https://github.com/octocat/demo" noEffects)
  = Returned {| score := 1;
                details := "License found: Apache-2.0. Compatible: true" |}.
Proof.
  assert (Hnone : manifestText readmeLicensed (licenseHeaders "ghp_token")
                    "octocat/demo" = None) by reflexivity.
  exact (proj1 (proj2 (proj2 (proj2 (proj2
           (license_cascade readmeLicensed "ghp_token"
              "https://github.com/octocat/demo" "octocat/demo"
              noEffects noEffects eq_refl eq_refl eq_refl)))
           (or_intror (conj (ex_intro _ _ eq_refl) Hnone))))
           sampleReadme eq_refl).
Defined.

(** C2 does not hold as worded: in a repository without LICENSE,
    package.json and README every step ends without license text, and the
    details are the error of the README request, not 'No license
    information found'. *)
Lemma license_cascade_counterexample :
  let hs := licenseHeaders "ghp_token" in
  let run := checkLicenseCompatibility bareRepo
               "https://github.com/octocat/bare" noEffects in
  licenseFileText bareRepo hs "octocat/bare" = None
  /\ manifestText bareRepo hs "octocat/bare" = None
  /\ readmeText bareRepo hs "octocat/bare" = None
  /\ requests (snd run)
     = [ licenseFileRequest hs "octocat/bare";
         manifestRequest hs "octocat/bare";
         readmeRequest hs "octocat/bare" ]
  /\ fst run
     = Returned {| score := 0;
                   details := "Error checking license: Request failed with status code 404" |}
  /\ fst run
     <> Returned {| score := 0; details := "No license information found" |}.
Proof.
  repeat split; try reflexivity.
  vm_compute. discriminate.
Qed.

(** C9. A step that yields no text does not end the resolution.  When the
    LICENSE file is fetched and is empty, the README is requested next;
    when the LICENSE request fails and the manifest parses but its license
    field is absent or empty, the README is requested after the manifest.
    In both cases the README decides the result. *)
Theorem empty_step_falls_through (w : World) (token url repoPath : string)
        (e e1 : Effects) :
  GITHUB_TOKEN w = Some token ->
  truthy token = true ->
  resolveRepoPath w url e = (Returned (inr repoPath), e1) ->
  let hs := licenseHeaders token in
  let file := licenseFileRequest hs repoPath in
  let manifest := manifestRequest hs repoPath in
  let readme := readmeRequest hs repoPath in
  let run := checkLicenseCompatibility w url e in
  (contentsEndpoint w file = Reply EmptyString ->
   requests (snd run) = requests e1 ++ [file; readme]
   /\ run = readmeOutcome w hs repoPath (issue [file] e1))
  /\ (forall message text license,
         contentsEndpoint w file = Failed message ->
         contentsEndpoint w manifest = Reply text ->
         manifestLicense w text = Reply license ->
         license = None \/ license = Some EmptyString ->
         requests (snd run) = requests e1 ++ [file; manifest; readme]
         /\ run = readmeOutcome w hs repoPath (issue [file; manifest] e1)).
Proof.
  intros Htok Htruthy Hres hs file manifest readme run. split.
  - intros Hfile.
    assert (Hrun : run = readmeOutcome w hs repoPath (issue [file] e1))
      by exact (path_file_empty w token Htok Htruthy url repoPath e e1 Hres Hfile).
    split; [|exact Hrun].
    rewrite Hrun, readmeOutcome_requests. cbn [issue requests].
    now rewrite <- app_assoc.
  - intros message text license Hfile Hman Hparse Hlic.
    assert (Hnone : manifestText w hs repoPath = None).
    { unfold manifestText. fold manifest. rewrite Hman, Hparse.
      destruct Hlic as [->| ->]; reflexivity. }
    assert (Hparsed : manifestParsed w hs repoPath = true).
    { unfold manifestParsed. fold manifest. now rewrite Hman, Hparse. }
    assert (Hrun : run = readmeOutcome w hs repoPath (issue [file; manifest] e1)).
    { unfold run.
      rewrite (path_manifest_nothing w token Htok Htruthy url repoPath e e1 Hres
                 message Hfile Hnone).
      fold hs. now rewrite Hparsed. }
    split; [|exact Hrun].
    rewrite Hrun, readmeOutcome_requests. cbn [issue requests].
    now rewrite <- app_assoc.
Qed.

Lemma empty_step_falls_through_witness :
  let hs := licenseHeaders "ghp_token" in
  (requests (snd (checkLicenseCompatibility emptyLicenseFile
                    "https://github.com/octocat/demo" noEffects))
   = [ licenseFileRequest hs "octocat/demo"; readmeRequest hs "octocat/demo" ])
  /\ (requests (snd (checkLicenseCompatibility manifestWithoutLicense
                       "https://github.com/octocat/demo" noEffects))
      = [ licenseFileRequest hs "octocat/demo";
          manifestRequest hs "octocat/demo";
          readmeRequest hs "octocat/demo" ]).
Proof.
  split.
  - exact (proj1 (proj1 (empty_step_falls_through emptyLicenseFile "ghp_token"
                           "https://github.com/octocat/demo" "octocat/demo"
                           noEffects noEffects eq_refl eq_refl eq_refl)
                    eq_refl)).
  - exact (proj1 (proj2 (empty_step_falls_through manifestWithoutLicense
                           "ghp_token"
                           "https://github.com/octocat/demo" "octocat/demo"
                           noEffects noEffects eq_refl eq_refl eq_refl)
                    "Request failed with status code 404"
                    sampleManifest None eq_refl eq_refl eq_refl
                    (or_introl eq_refl))).
Defined.

(** C3, at a license text that writes BSD-2-Clause with spaces.  Read
    with its hyphens as spaces the allow-list contains the name, yet
    [isCompatibleWithLGPLv2_1] answers false and the check scores 0: the
    string pattern of [replace] turns only the first hyphen of a name into
    a space.  The details are the first line and the verdict. *)
Theorem spaced_license_name_rejected :
  allowListedSpec "BSD 2 Clause License" = true
  /\ isCompatibleWithLGPLv2_1 "BSD 2 Clause License" = false
  /\ map (fun license => replace (toLowerCase license) "-" " ")
         [ "BSD-2-Clause"; "BSD-3-Clause"; "Apache-2.0" ]
     = [ "bsd 2-clause"; "bsd 3-clause"; "apache 2.0" ]
  /\ checkLicenseCompatibility spacedBsd "https://github.com/octocat/demo"
                               noEffects
     = (Returned {| score := 0;
                    details := "License found: BSD 2 Clause License. Compatible: false" |},
        {| requests := [ licenseFileRequest (licenseHeaders "ghp_token")
                                            "octocat/demo" ];
           console := [] |}).
Proof. repeat split; reflexivity. Qed.

Example isCompatibleWithLGPLv2_1_samples :
  map isCompatibleWithLGPLv2_1
      [ "MIT License"; "Apache License 2.0"; "GNU LGPL 2.1"; "bsd 2-clause";
        "Proprietary"; "BSD 3 Clause" ]
  = [ true; false; true; true; false; false ].
Proof. reflexivity. Qed.

(** ** The line counter *)

Lemma block_opener_is_not_line_comment (s : string) :
  startsWith s "/*" = true -> startsWith s "//" = false.
Proof.
  destruct s as [|c1 [|c2 s]]; simpl; try discriminate.
  - now rewrite andb_false_r.
  - destruct (Ascii.eqb_spec c1 "/"); [|discriminate]. simpl.
    destruct (Ascii.eqb_spec c2 "*"); [|discriminate]. subst c2.
    intros _. reflexivity.
Qed.

(** Inside a block comment that no line closes, every line is a comment
    line and the comment stays open. *)
Lemma countLine_inside_block (lines : list string) :
  forall st,
    inBlockComment st = true ->
    (forall line, In line lines -> endsWith (trim line) "*/" = false) ->
    fold_left countLine lines st
    = {| counted := {| sloc := sloc (counted st);
                       comments := comments (counted st)
                                   + N.of_nat (List.length lines) |};
         inBlockComment := true |}.
Proof.
  induction lines as [|line lines IH]; intros st Hin Hopen.
  - destruct st as [[s c] b]. simpl in *. subst b. now rewrite N.add_0_r.
  - cbn [fold_left]. rewrite IH.
    + unfold countLine. rewrite Hin. cbn [counted sloc comments].
      f_equal. f_equal. cbn [List.length]. lia.
    + unfold countLine. rewrite Hin. cbn [inBlockComment].
      now rewrite (Hopen line (or_introl eq_refl)).
    + intros l Hl. apply Hopen. now right.
Qed.

(** C7. When the first line of a file opens a block comment and none of
    the lines considered (the first 100 at most) closes it, every one of
    these lines, blank or not, is counted as a comment line and no line
    is counted as code. *)
Theorem unclosed_block_comment (fileContent first : string)
        (rest : list string) :
  limitedLines fileContent = first :: rest ->
  startsWith (trim first) "/*" = true ->
  (forall line, In line (first :: rest) -> endsWith (trim line) "*/" = false) ->
  countSlocAndCommentsLimited fileContent
  = {| sloc := 0; comments := N.of_nat (List.length (first :: rest)) |}
  /\ (List.length (first :: rest) <= 100)%nat.
Proof.
  intros Hlines Hopen Hnoclose. split.
  - unfold countSlocAndCommentsLimited. rewrite Hlines. cbn [fold_left].
    rewrite countLine_inside_block.
    + unfold countLine. cbn [inBlockComment counted sloc comments].
      rewrite (block_opener_is_not_line_comment _ Hopen), Hopen.
      cbn [counted sloc comments List.length]. f_equal. lia.
    + unfold countLine. cbn [inBlockComment].
      rewrite (block_opener_is_not_line_comment _ Hopen), Hopen.
      cbn [inBlockComment].
      now rewrite (Hnoclose first (or_introl eq_refl)).
    + intros l Hl. apply Hnoclose. now right.
  - rewrite <- Hlines. unfold limitedLines. apply firstn_le_length.
Qed.

Lemma unclosed_block_comment_witness :
  countSlocAndCommentsLimited
    (unlines [ "/* header"; EmptyString; "  main();"; "// never reached" ])
  = {| sloc := 0; comments := 4 |}.
Proof.
  refine (proj1 (unclosed_block_comment
                   (unlines [ "/* header"; EmptyString; "  main();"; "// never reached" ])
                   "/* header" [ EmptyString; "  main();"; "// never reached" ]
                   eq_refl eq_refl _)).
  intros line [<-|[<-|[<-|[<-|[]]]]]; reflexivity.
Defined.

Example countSlocAndCommentsLimited_mixed :
  countSlocAndCommentsLimited
    (unlines [ "// a"; "let x = 1;"; EmptyString; "/* b */"; "/* c"; "x++;"; "d */";
               "x--;" ])
  = {| sloc := 2; comments := 5 |}.
Proof. reflexivity. Qed.

Example countSlocAndCommentsLimited_cap :
  countSlocAndCommentsLimited (unlines (repeat "x();" 150))
  = {| sloc := 100; comments := 0 |}.
Proof. reflexivity. Qed.

(** ** The ramp-up ratio *)

(** *** Rounding to binary64 *)

Section Binary64.

Local Open Scope Z_scope.

Lemma digits2_pos_bound (p : positive) :
  2 ^ (Z.pos (digits2_pos p) - 1) <= Z.pos p.
Proof.
  induction p as [p IH|p IH|]; cbn [digits2_pos].
  - rewrite Pos2Z.inj_succ.
    replace (Z.succ (Z.pos (digits2_pos p)) - 1) with (Z.succ (Z.pos (digits2_pos p) - 1)) by lia.
    rewrite Z.pow_succ_r by lia. lia.
  - rewrite Pos2Z.inj_succ.
    replace (Z.succ (Z.pos (digits2_pos p)) - 1) with (Z.succ (Z.pos (digits2_pos p) - 1)) by lia.
    rewrite Z.pow_succ_r by lia. lia.
  - simpl. lia.
Qed.

Lemma shr_1_half (r : shr_record) :
  0 <= shr_m r -> shr_m (shr_1 r) = shr_m r / 2.
Proof.
  destruct r as [m b s]. cbn [shr_m]. intros Hm.
  destruct m as [|[p|p|]|p]; cbn [shr_1 shr_m]; try reflexivity; try lia.
  - apply Z.div_unique with (r := 1); lia.
  - apply Z.div_unique with (r := 0); lia.
Qed.

Lemma pow2_pos (n : Z) : 0 <= n -> 0 < 2 ^ n.
Proof. intros H. apply Z.pow_pos_nonneg; lia. Qed.

Lemma iter_shr_1 (n : positive) :
  forall r, 0 <= shr_m r ->
    shr_m (iter_pos shr_1 n r) = shr_m r / 2 ^ Z.pos n.
Proof.
  induction n as [n IH|n IH|]; intros r Hr; cbn [iter_pos].
  - assert (H1 : 0 <= shr_m (shr_1 r)).
    { rewrite shr_1_half by lia. apply Z.div_pos; lia. }
    assert (H2 : 0 <= shr_m (iter_pos shr_1 n (shr_1 r))).
    { rewrite IH by exact H1. apply Z.div_pos; [exact H1|apply pow2_pos; lia]. }
    rewrite (IH _ H2), (IH _ H1), shr_1_half by lia.
    rewrite !Z.div_div by (try apply pow2_pos; lia).
    f_equal. rewrite <- Z.pow_add_r by lia.
    rewrite <- Z.pow_succ_r by lia. f_equal. lia.
  - assert (H2 : 0 <= shr_m (iter_pos shr_1 n r)).
    { rewrite IH by exact Hr. apply Z.div_pos; [exact Hr|apply pow2_pos; lia]. }
    rewrite (IH _ H2), (IH _ Hr).
    rewrite !Z.div_div by (try apply pow2_pos; lia).
    f_equal. rewrite <- Z.pow_add_r by lia. f_equal. lia.
  - rewrite shr_1_half by lia. reflexivity.
Qed.

(** After [shr], a non-negative mantissa is still non-negative, and a
    positive one is still positive when fewer bits are shifted out than it
    has. *)
Lemma shr_nonneg (r : shr_record) (e n : Z) :
  0 <= shr_m r -> 0 <= shr_m (fst (shr r e n)).
Proof.
  intros Hr. destruct n as [|n|n]; cbn [shr fst]; try exact Hr.
  rewrite iter_shr_1 by exact Hr. apply Z.div_pos; [exact Hr|apply pow2_pos; lia].
Qed.

Lemma shr_pos (r : shr_record) (e n d : Z) :
  2 ^ (d - 1) <= shr_m r -> 0 < d -> n < d ->
  0 < shr_m (fst (shr r e n)).
Proof.
  intros Hd Hpos Hn.
  assert (0 < 2 ^ (d - 1)) by (apply pow2_pos; lia).
  destruct n as [|n|n]; cbn [shr fst]; try lia.
  rewrite iter_shr_1 by lia.
  apply Z.div_str_pos. split; [apply pow2_pos; lia|].
  apply Z.le_trans with (2 ^ (d - 1)); [|exact Hd].
  apply Z.pow_le_mono_r; lia.
Qed.

Lemma shr_record_of_loc_m (m : Z) (l : location) :
  shr_m (shr_record_of_loc m l) = m.
Proof. destruct l as [|[| |]]; reflexivity. Qed.

Lemma shr_exponent (r : shr_record) (e n : Z) : e <= snd (shr r e n).
Proof. destruct n; cbn [shr snd]; lia. Qed.

Lemma shr_fexp_nonneg (m e : Z) (l : location) :
  0 <= m -> 0 <= shr_m (fst (shr_fexp prec emax m e l)).
Proof.
  intros Hm. unfold shr_fexp. apply shr_nonneg.
  now rewrite shr_record_of_loc_m.
Qed.

Lemma shr_fexp_exponent (m e : Z) (l : location) :
  e <= snd (shr_fexp prec emax m e l).
Proof. unfold shr_fexp. apply shr_exponent. Qed.

(** A positive mantissa whose exponent is not below [emin] keeps a
    positive mantissa when it is brought to its canonical exponent. *)
Lemma shr_fexp_pos (m : positive) (e : Z) (l : location) :
  emin prec emax <= e ->
  0 < shr_m (fst (shr_fexp prec emax (Z.pos m) e l)).
Proof.
  intros He. unfold shr_fexp.
  apply shr_pos with (d := Z.pos (digits2_pos m)).
  - rewrite shr_record_of_loc_m. apply digits2_pos_bound.
  - lia.
  - cbn [Zdigits2]. unfold fexp, emin, prec, emax in *. lia.
Qed.

Lemma round_nearest_even_ge (m : Z) (l : location) :
  m <= round_nearest_even m l.
Proof.
  destruct l as [|[| |]]; cbn [round_nearest_even]; try lia.
  destruct (Z.even m); lia.
Qed.

(** Rounding a positive mantissa never gives a zero or a NaN. *)
Lemma binary_round_aux_pos (sx : bool) (m : positive) (e : Z) (l : location) :
  emin prec emax <= e ->
  (exists m' e', binary_round_aux prec emax sx (Z.pos m) e l = S754_finite sx m' e')
  \/ binary_round_aux prec emax sx (Z.pos m) e l = S754_infinity sx.
Proof.
  intros He. unfold binary_round_aux.
  pose proof (shr_fexp_pos m e l He) as H1.
  pose proof (shr_fexp_exponent (Z.pos m) e l) as E1.
  destruct (shr_fexp prec emax (Z.pos m) e l) as [mrs' e1]. cbn [fst snd] in *.
  pose proof (round_nearest_even_ge (shr_m mrs') (loc_of_shr_record mrs')) as H2.
  destruct (round_nearest_even (shr_m mrs') (loc_of_shr_record mrs')) as [|m2|m2];
    try lia.
  pose proof (shr_fexp_pos m2 e1 loc_Exact ltac:(lia)) as H3.
  destruct (shr_fexp prec emax (Z.pos m2) e1 loc_Exact) as [mrs'' e2].
  cbn [fst] in H3.
  destruct (shr_m mrs'') as [|m3|m3]; try lia.
  destruct (e2 <=? emax - prec); [left; eauto|right; reflexivity].
Qed.

(** Rounding a non-negative mantissa never gives a NaN. *)
Lemma binary_round_aux_nonneg (sx : bool) (m e : Z) (l : location) :
  0 <= m -> binary_round_aux prec emax sx m e l <> S754_nan.
Proof.
  intros Hm. unfold binary_round_aux.
  pose proof (shr_fexp_nonneg m e l Hm) as H1.
  destruct (shr_fexp prec emax m e l) as [mrs' e1]. cbn [fst] in H1.
  pose proof (round_nearest_even_ge (shr_m mrs') (loc_of_shr_record mrs')) as H2.
  pose proof (shr_fexp_nonneg (round_nearest_even (shr_m mrs') (loc_of_shr_record mrs'))
                e1 loc_Exact ltac:(lia)) as H3.
  destruct (shr_fexp prec emax _ e1 loc_Exact) as [mrs'' e2].
  cbn [fst] in H3.
  destruct (shr_m mrs'') as [|m3|m3]; try lia; try discriminate.
  destruct (e2 <=? emax - prec); discriminate.
Qed.

Lemma shl_align_exponent (mx : positive) (ex ex' : Z) :
  emin prec emax <= ex -> emin prec emax <= ex' ->
  emin prec emax <= snd (shl_align mx ex ex').
Proof.
  intros H H'. unfold shl_align. destruct (ex' - ex); cbn [snd]; lia.
Qed.

Lemma binary_round_pos (sx : bool) (m : positive) (e : Z) :
  emin prec emax <= e ->
  (exists m' e', binary_round prec emax sx m e = S754_finite sx m' e')
  \/ binary_round prec emax sx m e = S754_infinity sx.
Proof.
  intros He. unfold binary_round.
  pose proof (shl_align_exponent m e (fexp prec emax (Z.pos (digits2_pos m) + e)) He) as H.
  destruct (shl_align m e _) as [mz ez]. cbn [snd] in H.
  apply binary_round_aux_pos. apply H. unfold fexp. lia.
Qed.

Lemma digits2_pos_shift (p k : positive) :
  digits2_pos (Pos.iter xO p k) = (digits2_pos p + k)%positive.
Proof.
  induction k as [|k IH] using Pos.peano_ind.
  - cbn. lia.
  - rewrite Pos.iter_succ. cbn [digits2_pos]. rewrite IH. lia.
Qed.

(** A mantissa of 53 bits at an exponent in range is a binary64 number
    as it stands. *)
Lemma binary_round_aux_canonical (sx : bool) (m : positive) (e : Z) :
  Z.pos (digits2_pos m) = prec ->
  emin prec emax <= e <= emax - prec ->
  binary_round_aux prec emax sx (Z.pos m) e loc_Exact = S754_finite sx m e.
Proof.
  intros Hd He.
  assert (Hshift : fexp prec emax (Zdigits2 (Z.pos m) + e) - e = 0).
  { cbn [Zdigits2]. rewrite Hd. unfold fexp, emin, prec, emax in *. lia. }
  unfold binary_round_aux, shr_fexp. rewrite Hshift.
  cbn [shr shr_record_of_loc shr_m loc_of_shr_record round_nearest_even].
  rewrite Hshift. cbn [shr shr_m].
  destruct (Z.leb_spec e (emax - prec)); [reflexivity|lia].
Qed.

(** The quotient and the location that [SFdiv] rounds: the quotient of
    positive mantissas is not negative. *)
Lemma SFdiv_core_binary_nonneg (m1 m2 : positive) (e1 e2 : Z) :
  0 <= fst (fst (SFdiv_core_binary prec emax (Z.pos m1) e1 (Z.pos m2) e2)).
Proof.
  unfold SFdiv_core_binary.
  set (s := e1 - e2 - _).
  set (m' := match s with 0 => Z.pos m1 | Z.pos _ => Z.shiftl (Z.pos m1) s | Z.neg _ => 0 end).
  assert (Hm' : 0 <= m').
  { subst m'. destruct s; try lia. apply Z.shiftl_nonneg. lia. }
  pose proof (Z.div_pos m' (Z.pos m2) Hm' ltac:(lia)) as Hq.
  unfold Z.div in Hq.
  destruct (Z.div_eucl m' (Z.pos m2)) as [q r]. exact Hq.
Qed.

End Binary64.

Lemma Number_of_N_zero : Number_of_N 0 = S754_zero false.
Proof. reflexivity. Qed.

(** The Number of a positive counter is a positive Number. *)
Lemma Number_of_N_positive (n : N) :
  (0 < n)%N ->
  (exists m e, Number_of_N n = S754_finite false m e)
  \/ Number_of_N n = S754_infinity false.
Proof.
  intros Hn. destruct n as [|p]; [lia|].
  unfold Number_of_N. cbn [Z.of_N binary_normalize].
  apply binary_round_pos. unfold emin, prec, emax. lia.
Qed.

(** Counters below 2^53 are binary64 numbers. *)
Lemma Number_of_N_finite (n : N) :
  (0 < n < 2 ^ 53)%N ->
  exists m e, Number_of_N n = S754_finite false m e.
Proof.
  intros [Hpos Hlt]. destruct n as [|p]; [lia|].
  assert (Hp : (Z.pos p < 2 ^ 53)%Z).
  { change (Z.of_N (N.pos p) < Z.of_N (2 ^ 53))%Z. lia. }
  pose proof (digits2_pos_bound p) as Hd.
  assert (Hd53 : (Z.pos (digits2_pos p) <= 53)%Z).
  { destruct (Z.le_gt_cases (Z.pos (digits2_pos p)) 53) as [H|H]; [exact H|].
    assert (2 ^ 53 <= 2 ^ (Z.pos (digits2_pos p) - 1))%Z
      by (apply Z.pow_le_mono_r; lia).
    lia. }
  unfold Number_of_N. cbn [Z.of_N binary_normalize]. unfold binary_round.
  assert (Hfexp : fexp prec emax (Z.pos (digits2_pos p) + 0)
                  = (Z.pos (digits2_pos p) - 53)%Z).
  { unfold fexp, emin, prec, emax. lia. }
  rewrite Hfexp. unfold shl_align.
  destruct (Z.pos (digits2_pos p) - 53 - 0)%Z as [|k|k] eqn:Hk; try lia.
  - exists p, 0%Z. apply binary_round_aux_canonical; unfold emin, prec, emax; lia.
  - exists (Pos.iter xO p k), (Z.pos (digits2_pos p) - 53)%Z.
    apply binary_round_aux_canonical.
    + rewrite digits2_pos_shift. unfold prec. lia.
    + unfold emin, prec, emax. lia.
Qed.

(** Dividing a counter by a positive counter never gives NaN. *)
Lemma Number_divide_counters (c s : N) :
  (c < 2 ^ 53)%N -> (0 < s < 2 ^ 53)%N ->
  Number_divide (Number_of_N c) (Number_of_N s) <> S754_nan.
Proof.
  intros Hc Hs.
  destruct (Number_of_N_finite s Hs) as [ms [es ->]].
  destruct (N.eq_0_gt_0_cases c) as [->|Hc0].
  - rewrite Number_of_N_zero. discriminate.
  - destruct (Number_of_N_finite c (conj Hc0 Hc)) as [mc [ec ->]].
    unfold Number_divide. cbn [SFdiv].
    pose proof (SFdiv_core_binary_nonneg mc ms ec es) as Hq.
    destruct (SFdiv_core_binary prec emax (Z.pos mc) ec (Z.pos ms) es)
      as [[mz ez] lz].
    apply binary_round_aux_nonneg. exact Hq.
Qed.

(** *** The totals *)

Lemma walkEntry_filesOf {S : Type} (f : string -> S -> S) :
  forall entry acc,
    walkEntry f entry acc = fold_left (fun acc c => f c acc) (filesOf entry) acc.
Proof.
  fix IH 1. intros [name content|name entries] acc.
  - cbn [walkEntry filesOf].
    destruct (endsWith name ".ts" || endsWith name ".js"); reflexivity.
  - cbn [walkEntry filesOf]. revert acc.
    induction entries as [|entry entries IHentries]; intros acc.
    + reflexivity.
    + cbn [fold_left flat_map]. rewrite fold_left_app, <- IH. apply IHentries.
Qed.

Lemma walkDirectoryLimited_walkedFiles {S : Type} (f : string -> S -> S)
      (dir : list Entry) :
  forall acc,
    walkDirectoryLimited f dir acc
    = fold_left (fun acc c => f c acc) (walkedFiles dir) acc.
Proof.
  unfold walkDirectoryLimited, walkedFiles.
  induction dir as [|entry dir IH]; intros acc.
  - reflexivity.
  - cbn [fold_left flat_map].
    rewrite fold_left_app, <- walkEntry_filesOf. apply IH.
Qed.

Lemma addFile_totals (files : list string) :
  forall totals,
    fold_left (fun acc c => addFile c acc) files totals
    = {| sloc := sloc totals
                 + sumN (map sloc (map countSlocAndCommentsLimited files));
         comments := comments totals
                     + sumN (map comments (map countSlocAndCommentsLimited files)) |}.
Proof.
  induction files as [|c files IH]; intros [s k].
  - cbn. now rewrite !N.add_0_r.
  - cbn [fold_left map sumN fold_right]. rewrite IH. unfold addFile.
    cbn [sloc comments]. f_equal; fold (sumN (map sloc (map countSlocAndCommentsLimited files)));
      fold (sumN (map comments (map countSlocAndCommentsLimited files))); lia.
Qed.

(** C8, as the code has it.  The totals are the sums of the per-file
    counts over the walked .ts and .js files, and the ratio is the
    binary64 quotient of the comment total by the code total, never a
    substitute.  With no code line the quotient is NaN when there is no
    comment line either, and +Infinity when there is one.  While the
    totals are below 2^53, NaN is the ratio of this case only: with a
    positive code total the ratio is a number. *)
Theorem rampup_ratio (localPath : list Entry) :
  let r := calculateRampUpMetric localPath in
  let counts := map countSlocAndCommentsLimited (walkedFiles localPath) in
  rampSloc r = sumN (map sloc counts)
  /\ rampComments r = sumN (map comments counts)
  /\ ratio r = Number_divide (Number_of_N (rampComments r))
                             (Number_of_N (rampSloc r))
  /\ (rampSloc r = 0%N -> rampComments r = 0%N -> ratio r = S754_nan)
  /\ (rampSloc r = 0%N -> (0 < rampComments r)%N ->
      ratio r = S754_infinity false)
  /\ ((rampSloc r < 2 ^ 53)%N -> (rampComments r < 2 ^ 53)%N ->
      (ratio r = S754_nan <-> rampSloc r = 0%N /\ rampComments r = 0%N)).
Proof.
  intros r counts.
  assert (Htotals :
            walkDirectoryLimited addFile localPath {| sloc := 0; comments := 0 |}
            = {| sloc := sumN (map sloc counts);
                 comments := sumN (map comments counts) |}).
  { rewrite walkDirectoryLimited_walkedFiles, addFile_totals.
    cbn [sloc comments]. now rewrite !N.add_0_l. }
  assert (Hratio : ratio r = Number_divide (Number_of_N (rampComments r))
                                          (Number_of_N (rampSloc r)))
    by reflexivity.
  assert (Hnan : rampSloc r = 0%N -> rampComments r = 0%N -> ratio r = S754_nan).
  { intros Hs Hc. rewrite Hratio, Hs, Hc. reflexivity. }
  assert (Hinf : rampSloc r = 0%N -> (0 < rampComments r)%N ->
                 ratio r = S754_infinity false).
  { intros Hs Hc. rewrite Hratio, Hs, Number_of_N_zero.
    destruct (Number_of_N_positive _ Hc) as [[m [e' ->]]| ->]; reflexivity. }
  split; [|split; [|split; [exact Hratio|split; [exact Hnan|split; [exact Hinf|]]]]].
  - subst r. unfold calculateRampUpMetric. cbn [rampSloc]. now rewrite Htotals.
  - subst r. unfold calculateRampUpMetric. cbn [rampComments]. now rewrite Htotals.
  - intros Hs Hc. split.
    + intros H.
      destruct (N.eq_0_gt_0_cases (rampSloc r)) as [Hs0|Hs0].
      * destruct (N.eq_0_gt_0_cases (rampComments r)) as [Hc0|Hc0];
          [now split|].
        rewrite (Hinf Hs0 Hc0) in H. discriminate H.
      * exfalso. rewrite Hratio in H.
        exact (Number_divide_counters _ _ Hc (conj Hs0 Hs) H).
    + intros [Hs0 Hc0]. now apply Hnan.
Qed.

Lemma rampup_ratio_witness :
  ratio (calculateRampUpMetric noSources) = S754_nan
  /\ ratio (calculateRampUpMetric commentOnly) = S754_infinity false.
Proof.
  split.
  - apply (proj1 (proj2 (proj2 (proj2 (rampup_ratio noSources)))));
      reflexivity.
  - apply (proj1 (proj2 (proj2 (proj2 (proj2 (rampup_ratio commentOnly))))));
      reflexivity.
Defined.

(** C8 does not hold as worded: a checkout whose only source file holds
    a comment has no code line, and its ratio is +Infinity, which is not
    NaN. *)
Lemma rampup_ratio_counterexample :
  let r := calculateRampUpMetric commentOnly in
  rampSloc r = 0%N
  /\ rampComments r = 1%N
  /\ ratio r = S754_infinity false
  /\ ratio r <> S754_nan.
Proof. repeat split; try reflexivity. vm_compute. discriminate. Qed.

Example rampup_sixty_twenty :
  calculateRampUpMetric sixtyTwenty
  = {| rampSloc := 60; rampComments := 20;
       ratio := S754_finite false 6004799503160661 (-54) |}.
Proof. vm_compute. reflexivity. Qed.

(** * Further properties *)

(** ** Lines *)

Lemma splitLines_nonempty (s : string) : splitLines s <> [].
Proof.
  destruct s as [|c s]; cbn [splitLines]; [discriminate|].
  destruct (Ascii.eqb c LF); [discriminate|].
  destruct (splitLines s); discriminate.
Qed.

(** Splitting distributes over a line feed. *)
Lemma splitLines_app_LF (a b : string) :
  splitLines (a ++ String LF b) = (splitLines a ++ splitLines b)%list.
Proof.
  induction a as [|c a IH]; [reflexivity|].
  cbn [append splitLines]. destruct (Ascii.eqb c LF).
  - now rewrite IH.
  - rewrite IH. pose proof (splitLines_nonempty a) as Hne.
    destruct (splitLines a); [congruence|reflexivity].
Qed.

Lemma limitedLines_bounds (fileContent : string) :
  (1 <= List.length (limitedLines fileContent) <= 100)%nat.
Proof.
  unfold limitedLines. split.
  - pose proof (splitLines_nonempty fileContent) as Hne.
    destruct (splitLines fileContent); [congruence|]. cbn. lia.
  - apply firstn_le_length.
Qed.

(** Each line adds one to exactly one counter, or to none. *)
Lemma countLine_step (st : LineState) (line : string) :
  let st' := countLine st line in
  (sloc (counted st') + comments (counted st')
   <= sloc (counted st) + comments (counted st) + 1)%N
  /\ (sloc (counted st) <= sloc (counted st'))%N
  /\ (comments (counted st) <= comments (counted st'))%N.
Proof.
  unfold countLine.
  destruct (inBlockComment st); [cbn; lia|].
  destruct (startsWith (trim line) "//"); [cbn; lia|].
  destruct (startsWith (trim line) "/*"); [cbn; lia|].
  destruct (0 <? String.length (trim line))%nat; cbn; lia.
Qed.

Lemma countLines_bound (lines : list string) :
  forall st,
    (sloc (counted (fold_left countLine lines st))
     + comments (counted (fold_left countLine lines st))
     <= sloc (counted st) + comments (counted st)
        + N.of_nat (List.length lines))%N.
Proof.
  induction lines as [|line lines IH]; intros st.
  - cbn. lia.
  - cbn [fold_left List.length]. specialize (IH (countLine st line)).
    pose proof (countLine_step st line) as [H _]. cbn zeta in H. lia.
Qed.

Lemma count_at_most_100 (fileContent : string) :
  (sloc (countSlocAndCommentsLimited fileContent)
   + comments (countSlocAndCommentsLimited fileContent) <= 100)%N.
Proof.
  unfold countSlocAndCommentsLimited.
  pose proof (countLines_bound (limitedLines fileContent)
                {| counted := {| sloc := 0; comments := 0 |};
                   inBlockComment := false |}) as H.
  pose proof (limitedLines_bounds fileContent) as Hb.
  cbn [counted sloc comments] in H. lia.
Qed.

(** X1. The two counts of a file together never exceed the number of
    lines considered, which lies between 1 and 100: a file contributes at
    most 100 to the totals, however long it is. *)
Theorem countSlocAndCommentsLimited_bounded (fileContent : string) :
  let c := countSlocAndCommentsLimited fileContent in
  (sloc c + comments c <= N.of_nat (List.length (limitedLines fileContent)))%N
  /\ (1 <= List.length (limitedLines fileContent) <= 100)%nat
  /\ (sloc c + comments c <= 100)%N.
Proof.
  intros c.
  assert (H : (sloc c + comments c
               <= N.of_nat (List.length (limitedLines fileContent)))%N).
  { subst c. unfold countSlocAndCommentsLimited.
    pose proof (countLines_bound (limitedLines fileContent)
                  {| counted := {| sloc := 0; comments := 0 |};
                     inBlockComment := false |}) as H.
    cbn [counted sloc comments] in H. lia. }
  pose proof (limitedLines_bounds fileContent) as Hb.
  split; [exact H|]. split; [exact Hb|]. lia.
Qed.

(** X2. What follows the hundredth line does not count: text appended on
    further lines to a file of at least 100 lines leaves both counts as
    they are. *)
Theorem lines_after_cap_ignored (fileContent extra : string) :
  (100 <= List.length (splitLines fileContent))%nat ->
  countSlocAndCommentsLimited (fileContent ++ String LF extra)
  = countSlocAndCommentsLimited fileContent.
Proof.
  intros H. unfold countSlocAndCommentsLimited, limitedLines.
  rewrite splitLines_app_LF, firstn_app.
  replace (100 - List.length (splitLines fileContent))%nat with 0%nat by lia.
  cbn [firstn]. now rewrite app_nil_r.
Qed.

Lemma lines_after_cap_ignored_witness :
  countSlocAndCommentsLimited
    (unlines (repeat "run();" 100) ++ String LF "// trailing note")
  = {| sloc := 100; comments := 0 |}.
Proof.
  rewrite (lines_after_cap_ignored (unlines (repeat "run();" 100))
             "// trailing note").
  - reflexivity.
  - vm_compute. lia.
Defined.

Lemma countLines_no_opener (lines : list string) :
  forall st,
    inBlockComment st = false ->
    (forall line, In line lines -> commentOpener line = false) ->
    fold_left countLine lines st
    = {| counted :=
           {| sloc := sloc (counted st)
                      + N.of_nat (List.length (filter nonBlank lines));
              comments := comments (counted st) |};
         inBlockComment := false |}.
Proof.
  induction lines as [|line lines IH]; intros [[s k] b] Hb Hno.
  - cbn in *. subst b. now rewrite N.add_0_r.
  - cbn [inBlockComment] in Hb. subst b.
    assert (Hline : commentOpener line = false) by (apply Hno; now left).
    unfold commentOpener in Hline. apply orb_false_iff in Hline.
    destruct Hline as [H1 H2].
    cbn [fold_left filter]. unfold countLine at 2.
    cbn [inBlockComment counted sloc comments]. rewrite H1, H2.
    unfold nonBlank at 1.
    destruct (0 <? String.length (trim line))%nat.
    + rewrite IH; [|reflexivity|intros l Hl; apply Hno; now right].
      cbn [counted sloc comments List.length]. f_equal. f_equal. lia.
    + rewrite IH; [|reflexivity|intros l Hl; apply Hno; now right].
      reflexivity.
Qed.

(** X3. In a file none of whose considered lines starts, once trimmed,
    with a comment opener, nothing is counted as a comment and the code
    lines are exactly the lines that are not blank. *)
Theorem file_without_comment_openers (fileContent : string) :
  (forall line, In line (limitedLines fileContent) ->
                commentOpener line = false) ->
  countSlocAndCommentsLimited fileContent
  = {| sloc := N.of_nat (List.length (filter nonBlank (limitedLines fileContent)));
       comments := 0 |}.
Proof.
  intros Hno. unfold countSlocAndCommentsLimited.
  rewrite (countLines_no_opener (limitedLines fileContent)
             {| counted := {| sloc := 0; comments := 0 |};
                inBlockComment := false |} eq_refl Hno).
  reflexivity.
Qed.

Lemma file_without_comment_openers_witness :
  countSlocAndCommentsLimited
    (unlines [ "let x = 1; // set x"; "   "; EmptyString; "x /* y */ ;" ])
  = {| sloc := 2; comments := 0 |}.
Proof.
  refine (file_without_comment_openers
            (unlines [ "let x = 1; // set x"; "   "; EmptyString;
                       "x /* y */ ;" ]) _).
  intros line [<-|[<-|[<-|[<-|[]]]]]; reflexivity.
Defined.

(** The counts so far are carried along unchanged by the rest of the
    loop. *)
Lemma countLine_shift (c : SlocCount) (b : bool) (line : string) :
  countLine {| counted := c; inBlockComment := b |} line
  = let st := countLine {| counted := {| sloc := 0; comments := 0 |};
                           inBlockComment := b |} line in
    {| counted := {| sloc := sloc c + sloc (counted st);
                     comments := comments c + comments (counted st) |};
       inBlockComment := inBlockComment st |}.
Proof.
  destruct c as [s k]. unfold countLine.
  cbn [inBlockComment counted sloc comments].
  destruct b; [cbn; now rewrite N.add_0_r|].
  destruct (startsWith (trim line) "//"); [cbn; now rewrite N.add_0_r|].
  destruct (startsWith (trim line) "/*"); [cbn; now rewrite N.add_0_r|].
  destruct (0 <? String.length (trim line))%nat; cbn; now rewrite !N.add_0_r.
Qed.

Lemma countLines_shift (lines : list string) :
  forall c b,
    fold_left countLine lines {| counted := c; inBlockComment := b |}
    = let st := fold_left countLine lines
                  {| counted := {| sloc := 0; comments := 0 |};
                     inBlockComment := b |} in
      {| counted := {| sloc := sloc c + sloc (counted st);
                       comments := comments c + comments (counted st) |};
         inBlockComment := inBlockComment st |}.
Proof.
  induction lines as [|line lines IH]; intros [s k] b.
  - cbn. now rewrite !N.add_0_r.
  - cbn [fold_left]. rewrite countLine_shift. cbn zeta.
    destruct (countLine {| counted := {| sloc := 0; comments := 0 |};
                           inBlockComment := b |} line) as [[s1 k1] b1].
    cbn [counted sloc comments inBlockComment].
    rewrite IH. symmetry. rewrite IH. cbn zeta.
    cbn [counted sloc comments inBlockComment]. f_equal. f_equal; lia.
Qed.

(** X4. Counts add up across a line break where no block comment is
    open: when the first part leaves no comment open and both parts fit
    in the 100 lines, the counts of the whole are the sums of the counts
    of the parts. *)
Theorem counts_add_up (first second : string) :
  (List.length (splitLines first) + List.length (splitLines second) <= 100)%nat ->
  inBlockComment (scanLines (splitLines first)) = false ->
  countSlocAndCommentsLimited (first ++ String LF second)
  = {| sloc := sloc (countSlocAndCommentsLimited first)
               + sloc (countSlocAndCommentsLimited second);
       comments := comments (countSlocAndCommentsLimited first)
                   + comments (countSlocAndCommentsLimited second) |}.
Proof.
  intros Hlen Hclosed.
  unfold countSlocAndCommentsLimited, limitedLines.
  rewrite splitLines_app_LF.
  rewrite !firstn_all2 by (try rewrite length_app; lia).
  rewrite fold_left_app.
  fold (scanLines (splitLines first)). fold (scanLines (splitLines second)).
  destruct (scanLines (splitLines first)) as [c b] eqn:E.
  cbn [inBlockComment] in Hclosed. subst b.
  rewrite countLines_shift. cbn zeta. reflexivity.
Qed.

Lemma counts_add_up_witness :
  countSlocAndCommentsLimited
    (unlines [ "/* a"; "b */"; "f();" ] ++ String LF (unlines [ "// c"; "g();" ]))
  = {| sloc := 2; comments := 3 |}.
Proof.
  refine (counts_add_up (unlines [ "/* a"; "b */"; "f();" ])
                        (unlines [ "// c"; "g();" ]) _ eq_refl).
  vm_compute. lia.
Defined.

(** ** Totals of a checkout *)

Lemma rampup_totals (localPath : list Entry) :
  walkDirectoryLimited addFile localPath {| sloc := 0; comments := 0 |}
  = {| sloc := sumN (map sloc (map countSlocAndCommentsLimited
                                   (walkedFiles localPath)));
       comments := sumN (map comments (map countSlocAndCommentsLimited
                                           (walkedFiles localPath))) |}.
Proof.
  rewrite walkDirectoryLimited_walkedFiles, addFile_totals.
  cbn [sloc comments]. now rewrite !N.add_0_l.
Qed.




Lemma sumN_counts_bound (files : list string) :
  (sumN (map sloc (map countSlocAndCommentsLimited files))
   + sumN (map comments (map countSlocAndCommentsLimited files))
   <= 100 * N.of_nat (List.length files))%N.
Proof.
  induction files as [|c files IH]; [cbn; lia|].
  cbn [map sumN fold_right List.length].
  fold (sumN (map sloc (map countSlocAndCommentsLimited files))).
  fold (sumN (map comments (map countSlocAndCommentsLimited files))).
  pose proof (count_at_most_100 c). lia.
Qed.

(** X6. The totals of a checkout are bounded by its number of source
    files: code and comment lines together are at most 100 per walked
    file, and a checkout without .ts or .js files has both totals zero. *)
Theorem rampup_totals_bounded (localPath : list Entry) :
  let r := calculateRampUpMetric localPath in
  (rampSloc r + rampComments r
   <= 100 * N.of_nat (List.length (walkedFiles localPath)))%N
  /\ (walkedFiles localPath = [] -> rampSloc r = 0%N /\ rampComments r = 0%N).
Proof.
  intros r. subst r. unfold calculateRampUpMetric. rewrite rampup_totals.
  cbn [rampSloc rampComments sloc comments]. split.
  - apply sumN_counts_bound.
  - intros ->. split; reflexivity.
Qed.

Lemma rampup_totals_bounded_witness :
  rampSloc (calculateRampUpMetric noSources) = 0%N
  /\ rampComments (calculateRampUpMetric noSources) = 0%N.
Proof.
  apply (proj2 (rampup_totals_bounded noSources)). reflexivity.
Defined.

(** ** Outcomes of getBusFactor *)




Lemma getBusFactor_cases (w : World) (fuel : nat) (url : string) (e : Effects) :
  getBusFactor w fuel url e
  = match contributorPages w fuel
            (replace url "https://github.com/" EmptyString) 0 1 e with
    | (Returned total, e') => (Returned (busFactorScore total), e')
    | (Thrown message, e') =>
        (Returned (-1)%Q,
         logged ("Error fetching contributors for GitHub repo " ++ url ++ ": "
                 ++ message) e')
    | (OutOfFuel, e') => (OutOfFuel, e')
    end.
Proof.
  unfold getBusFactor, try_catch, bind.
  destruct (contributorPages w fuel _ 0 1 e) as [[total|message|] e'];
    reflexivity.
Qed.



Lemma contributorPages_endless (w : World) (repoPath : string) (fuel : nat) :
  (forall page, exists p,
      contributorsEndpoint w (contributorsRequest repoPath page) = Reply p
      /\ fullPage p) ->
  forall total page e,
    contributorPages w fuel repoPath total page e
    = (OutOfFuel, issue (pageRequests repoPath page fuel) e).
Proof.
  intros Hfull. induction fuel as [|fuel IH]; intros total page e.
  - cbn. now rewrite issue_nil.
  - cbn [contributorPages]. unfold bind at 1. unfold axios_get at 1.
    destruct (Hfull page) as [p [-> Hp]].
    unfold fullPage in Hp. apply N.ltb_ge in Hp. rewrite Hp.
    rewrite IH, pageRequests_S. unfold issue. cbn [requests console].
    now rewrite <- app_assoc.
Qed.

(** X8. The pagination has no upper bound of its own: against a server
    that answers every page request with at least 100 entries the loop
    never ends.  Whatever the number of rounds allowed, all of them are
    spent on requests for the pages 1, 2, 3, ... and no result is
    reached. *)
Theorem getBusFactor_endless (w : World) (url : string) :
  (forall page, exists p,
      contributorsEndpoint w
        (contributorsRequest (replace url "https://github.com/" EmptyString) page)
      = Reply p
      /\ fullPage p) ->
  forall fuel e,
    getBusFactor w fuel url e
    = (OutOfFuel,
       issue (pageRequests (replace url "https://github.com/" EmptyString) 1 fuel)
             e).
Proof.
  intros Hfull fuel e. rewrite getBusFactor_cases.
  now rewrite (contributorPages_endless w _ fuel Hfull).
Qed.

Lemma getBusFactor_endless_witness :
  fst (getBusFactor endless 40 "https://github.com/octocat/hello" noEffects)
  = OutOfFuel
  /\ List.length
       (requests (snd (getBusFactor endless 40
                         "https://github.com/octocat/hello" noEffects)))
     = 40%nat.
Proof.
  assert (Hfull : forall page, exists p,
             contributorsEndpoint endless
               (contributorsRequest
                  (replace "https://github.com/octocat/hello"
                           "https://github.com/" EmptyString) page)
             = Reply p /\ fullPage p).
  { intros page. exists (repeat octocat 100). split; [reflexivity|].
    vm_compute. discriminate. }
  rewrite (getBusFactor_endless endless "https://github.com/octocat/hello"
             Hfull 40 noEffects).
  split; reflexivity.
Defined.

(** ** Outcomes of checkLicenseCompatibility *)

(** How the repository path is obtained. *)
Lemma resolveRepoPath_cases (w : World) (url : string) (e : Effects) :
  resolveRepoPath w url e
  = if startsWith url "https://www.npmjs.com/package/" then
      match registryEndpoint w (registryRequest (packageNameOf url)) with
      | Failed message =>
          (Thrown message, issue [registryRequest (packageNameOf url)] e)
      | Reply (Some u) =>
          if truthy u
          then (Returned (inr (repoPathOfRepositoryUrl u)),
                issue [registryRequest (packageNameOf url)] e)
          else (Returned (inl {| score := 0;
                                 details := "No GitHub repository found for npm package" |}),
                issue [registryRequest (packageNameOf url)] e)
      | Reply None =>
          (Returned (inl {| score := 0;
                            details := "No GitHub repository found for npm package" |}),
           issue [registryRequest (packageNameOf url)] e)
      end
    else (Returned (inr (replace url "https://github.com/" EmptyString)), e).
Proof.
  unfold resolveRepoPath, packageNameOf, repoPathOfRepositoryUrl.
  destruct (startsWith url "https://www.npmjs.com/package/"); [|reflexivity].
  unfold bind, axios_get.
  destruct (registryEndpoint w _) as [m|[u|]]; try reflexivity.
  destruct (truthy u); reflexivity.
Qed.

(** The run, when the repository path cannot be obtained. *)
Lemma checkLicenseCompatibility_unresolved (w : World) (token url : string)
      (e e1 : Effects) :
  GITHUB_TOKEN w = Some token ->
  truthy token = true ->
  (forall early,
      resolveRepoPath w url e = (Returned (inl early), e1) ->
      checkLicenseCompatibility w url e = (Returned early, e1))
  /\ (forall message,
         resolveRepoPath w url e = (Thrown message, e1) ->
         checkLicenseCompatibility w url e
         = (Returned (errorResult message),
            logged ("Error checking license: " ++ message) e1)).
Proof.
  intros Htok Htruthy.
  split; intros x Hres; unfold checkLicenseCompatibility;
    rewrite Htok, Htruthy; cbn [negb]; unfold try_catch; unfold bind at 1;
    cbv beta; rewrite Hres; reflexivity.
Qed.

(** The run, once the repository path is known: it returns a verdict on
    some text or the error of the README request, after one of the four
    request sequences of the cascade. *)
Lemma cascade_outcome (w : World) (token url repoPath : string)
      (e e1 : Effects) :
  GITHUB_TOKEN w = Some token ->
  truthy token = true ->
  resolveRepoPath w url e = (Returned (inr repoPath), e1) ->
  exists r rs,
    fst (checkLicenseCompatibility w url e) = Returned r
    /\ requests (snd (checkLicenseCompatibility w url e))
       = (requests e1 ++ rs)%list
    /\ In rs (cascadeRequests (licenseHeaders token) repoPath)
    /\ ((exists text, r = licenseVerdict text)
        \/ (exists message, r = errorResult message)).
Proof.
  intros Htok Htruthy Hres.
  set (hs := licenseHeaders token).
  assert (Hreadme : forall e2 rs,
             requests e2 = (requests e1 ++ rs)%list ->
             exists r,
               fst (readmeOutcome w hs repoPath e2) = Returned r
               /\ requests (snd (readmeOutcome w hs repoPath e2))
                  = (requests e1 ++ rs ++ [readmeRequest hs repoPath])%list
               /\ ((exists text, r = licenseVerdict text)
                   \/ (exists message, r = errorResult message))).
  { intros e2 rs He2. rewrite readmeOutcome_requests, He2, <- app_assoc.
    unfold readmeOutcome.
    destruct (contentsEndpoint w (readmeRequest hs repoPath)) as [m|content].
    - eexists. split; [reflexivity|]. split; [reflexivity|]. right. now exists m.
    - eexists. split; [reflexivity|]. split; [reflexivity|]. left. eauto. }
  destruct (contentsEndpoint w (licenseFileRequest hs repoPath))
    as [message|text] eqn:Hfile.
  - destruct (manifestText w hs repoPath) as [license|] eqn:Hman.
    + rewrite (path_manifest w token Htok Htruthy url repoPath e e1 Hres
                 message license Hfile Hman).
      exists (licenseVerdict license),
        [licenseFileRequest hs repoPath; manifestRequest hs repoPath].
      cbn [fst snd cascadeRequests In]. split; [reflexivity|].
      split; [reflexivity|]. split; [tauto|]. left. eauto.
    + rewrite (path_manifest_nothing w token Htok Htruthy url repoPath e e1
                 Hres message Hfile Hman).
      fold hs.
      destruct (Hreadme
                  (if manifestParsed w hs repoPath
                   then issue [licenseFileRequest hs repoPath;
                               manifestRequest hs repoPath] e1
                   else logged "package.json not found or does not contain license information"
                          (issue [licenseFileRequest hs repoPath;
                                  manifestRequest hs repoPath] e1))
                  [licenseFileRequest hs repoPath; manifestRequest hs repoPath])
        as [r [H1 [H2 H3]]].
      { destruct (manifestParsed w hs repoPath); reflexivity. }
      exists r, [licenseFileRequest hs repoPath; manifestRequest hs repoPath;
                 readmeRequest hs repoPath].
      split; [exact H1|]. split; [exact H2|]. split; [|exact H3].
      cbn [cascadeRequests In]. tauto.
  - destruct (truthy text) eqn:Htext.
    + rewrite (path_file w token Htok Htruthy url repoPath e e1 Hres
                 text Hfile Htext).
      exists (licenseVerdict text), [licenseFileRequest hs repoPath].
      cbn [fst snd cascadeRequests In]. split; [reflexivity|].
      split; [reflexivity|]. split; [tauto|]. left. eauto.
    + apply truthy_false in Htext. subst text.
      rewrite (path_file_empty w token Htok Htruthy url repoPath e e1 Hres Hfile).
      fold hs.
      destruct (Hreadme (issue [licenseFileRequest hs repoPath] e1)
                  [licenseFileRequest hs repoPath] eq_refl)
        as [r [H1 [H2 H3]]].
      exists r, [licenseFileRequest hs repoPath; readmeRequest hs repoPath].
      split; [exact H1|]. split; [exact H2|]. split; [|exact H3].
      cbn [cascadeRequests In]. tauto.
Qed.

Lemma resolveRepoPath_shape (w : World) (url : string) (e : Effects) :
  match resolveRepoPath w url e with
  | (Returned (inl early), _) => early = noRepositoryResult
  | (Returned (inr _), _) => True
  | (Thrown _, _) => True
  | (OutOfFuel, _) => False
  end.
Proof.
  rewrite resolveRepoPath_cases.
  destruct (startsWith url "https://www.npmjs.com/package/"); [|exact I].
  destruct (registryEndpoint w _) as [m|[u|]]; try exact I; try reflexivity.
  destruct (truthy u); [exact I|reflexivity].
Qed.




(** X10. For the URL of an npm package page, when the registry names no
    repository (none, or an empty URL) the check ends with score 0 and
    'No GitHub repository found for npm package', and when the registry
    request fails it ends with score 0 and the error after
    'Error checking license: '.  In both cases the registry request,
    sent without headers, is the only request: the hosting API is not
    contacted. *)
Theorem npm_without_repository (w : World) (token url : string) (e : Effects) :
  GITHUB_TOKEN w = Some token ->
  truthy token = true ->
  startsWith url "https://www.npmjs.com/package/" = true ->
  let registry :=
    {| url := "https://registry.npmjs.org/" ++ packageNameOf url;
       params := []; headers := [] |} in
  (registryEndpoint w registry = Reply None
   \/ registryEndpoint w registry = Reply (Some EmptyString) ->
   checkLicenseCompatibility w url e
   = (Returned {| score := 0;
                  details := "No GitHub repository found for npm package" |},
      issue [registry] e))
  /\ (forall message,
         registryEndpoint w registry = Failed message ->
         checkLicenseCompatibility w url e
         = (Returned {| score := 0;
                        details := "Error checking license: " ++ message |},
            logged ("Error checking license: " ++ message)
                   (issue [registry] e))).
Proof.
  intros Htok Htruthy Hnpm registry.
  pose proof (resolveRepoPath_cases w url e) as Hres. rewrite Hnpm in Hres.
  change (registryRequest (packageNameOf url)) with registry in Hres.
  split.
  - intros H.
    apply (proj1 (checkLicenseCompatibility_unresolved w token url e
                    (issue [registry] e) Htok Htruthy)).
    rewrite Hres. destruct H as [-> | ->]; reflexivity.
  - intros message H.
    apply (proj2 (checkLicenseCompatibility_unresolved w token url e
                    (issue [registry] e) Htok Htruthy)).
    rewrite Hres, H. reflexivity.
Qed.

Lemma npm_without_repository_witness :
  checkLicenseCompatibility unpublishedSource
    "https://www.npmjs.com/package/left-pad" noEffects
  = (Returned {| score := 0;
                 details := "No GitHub repository found for npm package" |},
     {| requests := [ {| url := "https://registry.npmjs.org/left-pad";
                         params := []; headers := [] |} ];
        console := [] |}).
Proof.
  apply (proj1 (npm_without_repository unpublishedSource "ghp_token"
                  "https://www.npmjs.com/package/left-pad" noEffects
                  eq_refl eq_refl eq_refl)).
  left. reflexivity.
Defined.

(** ** Replacing the first occurrence *)

Local Open Scope string_scope.

Lemma startsWith_app (p s : string) : startsWith (p ++ s) p = true.
Proof.
  induction p as [|c p IH]; [destruct s; reflexivity|].
  cbn. now rewrite Ascii.eqb_refl, IH.
Qed.

Lemma drop_app (p s : string) : drop (String.length p) (p ++ s) = s.
Proof. induction p as [|c p IH]; [reflexivity|exact IH]. Qed.

(** A pattern at the very start is the one replaced. *)
Lemma replace_prefix (p s rep : string) :
  replace (p ++ s) p rep = rep ++ s.
Proof.
  destruct p as [|c p]; [destruct s; reflexivity|].
  cbn [append replace]. change (String c (p ++ s)) with (String c p ++ s).
  now rewrite startsWith_app, drop_app.
Qed.

(** Without an occurrence nothing is replaced. *)
Lemma replace_absent (s pat rep : string) :
  includes s pat = false -> replace s pat rep = s.
Proof.
  induction s as [|c s IH]; cbn [includes replace]; intros H;
    apply orb_false_iff in H; destruct H as [H1 H2]; rewrite H1.
  - reflexivity.
  - now rewrite IH.
Qed.

Lemma startsWith_nil (s : string) : startsWith s EmptyString = true.
Proof. destruct s; reflexivity. Qed.

(** [.git] does not overlap itself: where the text before it holds none,
    the first occurrence is the one that follows that text. *)
Lemma startsWith_dotgit_straddle (A B : string) :
  startsWith A ".git" = false ->
  A <> EmptyString ->
  startsWith (A ++ ".git" ++ B) ".git" = false.
Proof.
  intros H Hne.
  destruct A as [|c1 [|c2 [|c3 [|c4 A]]]]; [congruence| | | |];
    cbn in H |- *;
    repeat match goal with
           | |- context [Ascii.eqb ?x ?y] =>
               destruct (Ascii.eqb_spec x y); subst; cbn in H |- *;
               try reflexivity; try discriminate
           end.
  rewrite startsWith_nil in H. discriminate H.
Qed.

Lemma replace_first_dotgit (A B : string) :
  includes A ".git" = false ->
  replace (A ++ ".git" ++ B) ".git" EmptyString = A ++ B.
Proof.
  induction A as [|c A IH]; intros H.
  - exact (replace_prefix ".git" B EmptyString).
  - cbn [includes] in H. apply orb_false_iff in H. destruct H as [H1 H2].
    change (String c A ++ ".git" ++ B) with (String c (A ++ ".git" ++ B)).
    cbn [replace].
    change (String c (A ++ ".git" ++ B)) with (String c A ++ ".git" ++ B).
    rewrite (startsWith_dotgit_straddle (String c A) B H1) by discriminate.
    rewrite (IH H2). reflexivity.
Qed.

(** X11. The repository path of an npm package whose registry entry
    names git+https://github.com/<path>: the prefix is dropped, and then
    the first [.git] of the path is dropped, wherever it stands.  When
    the only [.git] is the suffix this gives the repository path; when
    the path holds an earlier one, that one is removed and the suffix
    stays. *)
Theorem npm_repository_path (w : World) (url A B : string) (e : Effects) :
  startsWith url "https://www.npmjs.com/package/" = true ->
  registryEndpoint w (registryRequest (packageNameOf url))
  = Reply (Some ("git+https://github.com/" ++ A ++ ".git" ++ B)) ->
  includes A ".git" = false ->
  includes (A ++ ".git" ++ B) "git://github.com/" = false ->
  includes (A ++ ".git" ++ B) "https://github.com/" = false ->
  resolveRepoPath w url e
  = (Returned (inr (A ++ B)), issue [registryRequest (packageNameOf url)] e).
Proof.
  intros Hnpm Hreg HA Hgit Hhttps.
  rewrite resolveRepoPath_cases, Hnpm, Hreg.
  set (rest := A ++ ".git" ++ B) in *.
  change (truthy ("git+https://github.com/" ++ rest)) with true. cbv iota.
  unfold repoPathOfRepositoryUrl.
  rewrite (replace_prefix "git+https://github.com/" rest EmptyString).
  change (EmptyString ++ rest) with rest.
  rewrite (replace_absent _ _ _ Hgit), (replace_absent _ _ _ Hhttps).
  subst rest. now rewrite (replace_first_dotgit A B HA).
Qed.

Lemma npm_repository_path_witness :
  fst (resolveRepoPath pagesPackage "https://www.npmjs.com/package/octocat-site"
         noEffects)
  = Returned (inr "octocat/octocathub.io.git").
Proof.
  rewrite (npm_repository_path pagesPackage
             "https://www.npmjs.com/package/octocat-site"
             "octocat/octocat" "hub.io.git" noEffects
             eq_refl eq_refl eq_refl eq_refl eq_refl).
  reflexivity.
Defined.

(** ** Where the token goes *)

Lemma cascadeRequests_authorised (token repoPath : string)
      (rs : list Request) :
  In rs (cascadeRequests (licenseHeaders token) repoPath) ->
  (List.length rs <= 3)%nat /\ Forall (authorised token) rs.
Proof.
  assert (Hf : authorised token (licenseFileRequest (licenseHeaders token) repoPath))
    by (split; [reflexivity|cbn; apply startsWith_nil]).
  assert (Hm : authorised token (manifestRequest (licenseHeaders token) repoPath))
    by (split; [reflexivity|cbn; apply startsWith_nil]).
  assert (Hr : authorised token (readmeRequest (licenseHeaders token) repoPath))
    by (split; [reflexivity|cbn; apply startsWith_nil]).
  cbn [cascadeRequests In].
  intros [<-|[<-|[<-|[<-|[]]]]];
    (split; [cbn; lia|repeat (apply Forall_cons; [assumption|]); apply Forall_nil]).
Qed.

(** X12. What [checkLicenseCompatibility] sends, and to whom.  A run
    issues at most four requests.  Each of them is either a request to
    the npm registry, which carries no header at all, or a request to
    https://api.github.com/repos/ with the Accept, Authorization and
    User-Agent headers of the configured token: the token is never sent
    to the registry, and the hosting API is never asked without it. *)
Theorem token_goes_to_hosting_api_only (w : World) (url : string)
        (e : Effects) :
  exists issued,
    requests (snd (checkLicenseCompatibility w url e))
    = (requests e ++ issued)%list
    /\ (List.length issued <= 4)%nat
    /\ Forall (fun r =>
                 toRegistry r
                 \/ exists token,
                     GITHUB_TOKEN w = Some token /\ authorised token r)
              issued.
Proof.
  destruct (GITHUB_TOKEN w) as [token|] eqn:Htok.
  2:{ exists []. unfold checkLicenseCompatibility. rewrite Htok.
      cbn. rewrite app_nil_r. repeat split; [lia|constructor]. }
  destruct (truthy token) eqn:Htruthy.
  2:{ exists []. unfold checkLicenseCompatibility. rewrite Htok, Htruthy.
      cbn. rewrite app_nil_r. repeat split; [lia|constructor]. }
  assert (Hreg : toRegistry (registryRequest (packageNameOf url)))
    by (split; [reflexivity|cbn; apply startsWith_nil]).
  destruct (checkLicenseCompatibility_unresolved w token url e
              (snd (resolveRepoPath w url e)) Htok Htruthy) as [Hearly Hthrown].
  pose proof (resolveRepoPath_shape w url e) as Hshape.
  pose proof (resolveRepoPath_cases w url e) as Hcases.
  assert (He1 : snd (resolveRepoPath w url e) = e
                \/ snd (resolveRepoPath w url e)
                   = issue [registryRequest (packageNameOf url)] e).
  { rewrite Hcases.
    destruct (startsWith url "https://www.npmjs.com/package/"); [|now left].
    destruct (registryEndpoint w _) as [m|[u|]]; try (now right).
    destruct (truthy u); now right. }
  assert (Hpre : exists pre,
             requests (snd (resolveRepoPath w url e)) = (requests e ++ pre)%list
             /\ (List.length pre <= 1)%nat
             /\ Forall (fun r =>
                          toRegistry r
                          \/ exists token,
                              GITHUB_TOKEN w = Some token /\ authorised token r)
                       pre).
  { destruct He1 as [-> | ->].
    - exists []. rewrite app_nil_r. repeat split; [cbn; lia|constructor].
    - exists [registryRequest (packageNameOf url)].
      repeat split; [cbn; lia|]. constructor; [now left|constructor]. }
  destruct Hpre as [pre [Hpre [Hlen Hall]]]. rewrite Htok in Hall.
  destruct (resolveRepoPath w url e) as [[[early|repoPath]|message|] e1] eqn:Hres;
    cbn [snd] in *.
  - rewrite (Hearly _ eq_refl). exists pre. cbn [snd].
    split; [exact Hpre|]. split; [lia|exact Hall].
  - destruct (cascade_outcome w token url repoPath e e1 Htok Htruthy Hres)
      as [r [rs [_ [Hrs [Hin _]]]]].
    destruct (cascadeRequests_authorised token repoPath rs Hin) as [Hlen' Hall'].
    exists (pre ++ rs)%list. rewrite Hrs, Hpre, <- app_assoc.
    split; [reflexivity|]. split; [rewrite length_app; lia|].
    apply Forall_app. split; [exact Hall|].
    eapply Forall_impl; [|exact Hall']. intros r0 Hr0. right. now exists token.
  - rewrite (Hthrown _ eq_refl). exists pre. cbn [snd logged requests].
    split; [exact Hpre|]. split; [lia|exact Hall].
  - destruct Hshape.
Qed.

(** ** The License section of a README *)

Lemma skipWhile_app (f : ascii -> bool) (xs s : string) :
  allChars f xs = true -> skipWhile f (xs ++ s) = skipWhile f s.
Proof.
  induction xs as [|c xs IH]; [reflexivity|].
  cbn [allChars append skipWhile]. intros H.
  apply andb_true_iff in H. destruct H as [-> H]. now apply IH.
Qed.

(** A run stops in front of a character that is not of the class. *)
Lemma skipWhile_stop (f : ascii -> bool) (c : ascii) (s : string) :
  f c = false -> skipWhile f (String c s) = String c s.
Proof. intros H. cbn. now rewrite H. Qed.

Lemma skipWhile_app_stop (f : ascii -> bool) (b t : string) :
  match t with EmptyString => True | String c _ => f c = false end ->
  skipWhile f (b ++ t) = skipWhile f b ++ t.
Proof.
  intros Ht. induction b as [|c b IH].
  - cbn [append skipWhile]. destruct t as [|c t]; [reflexivity|].
    cbn. now rewrite Ht.
  - cbn [append skipWhile]. destruct (f c); [exact IH|reflexivity].
Qed.

Lemma skipWhile_idempotent (f : ascii -> bool) (s : string) :
  skipWhile f (skipWhile f s) = skipWhile f s.
Proof.
  induction s as [|c s IH]; [reflexivity|].
  cbn [skipWhile]. destruct (f c) eqn:E; [exact IH|].
  cbn. now rewrite E.
Qed.

Lemma trimStart_skipWhile (s : string) : trimStart s = skipWhile isSpace s.
Proof.
  induction s as [|c s IH]; [reflexivity|].
  cbn. now rewrite IH.
Qed.

Lemma allChars_skipWhile (f g : ascii -> bool) (s : string) :
  allChars f s = true -> allChars f (skipWhile g s) = true.
Proof.
  induction s as [|c s IH]; [reflexivity|].
  cbn [allChars skipWhile]. intros H.
  destruct (g c); [|exact H].
  apply andb_true_iff in H. now apply IH.
Qed.

Lemma takeWhile_app_stop (f : ascii -> bool) (b t : string) :
  allChars f b = true ->
  match t with EmptyString => True | String c _ => f c = false end ->
  takeWhile f (b ++ t) = b.
Proof.
  intros Hb Ht. induction b as [|c b IH].
  - cbn [append]. destruct t as [|c t]; [reflexivity|]. cbn. now rewrite Ht.
  - cbn [allChars] in Hb. apply andb_true_iff in Hb. destruct Hb as [Hc Hb].
    cbn [append takeWhile]. rewrite Hc. now rewrite IH.
Qed.

Lemma toLowerCase_app (a b : string) :
  toLowerCase (a ++ b) = toLowerCase a ++ toLowerCase b.
Proof.
  induction a as [|c a IH]; [reflexivity|]. cbn. now rewrite IH.
Qed.

Lemma toLowerCase_length (s : string) :
  String.length (toLowerCase s) = String.length s.
Proof.
  induction s as [|c s IH]; [reflexivity|]. cbn. now rewrite IH.
Qed.

(** In front of a [#]-free text the search moves on. *)
Lemma extractLicenseFromReadme_skip (pre s : string) :
  noHash pre = true ->
  extractLicenseFromReadme (pre ++ s) = extractLicenseFromReadme s.
Proof.
  induction pre as [|c pre IH]; [reflexivity|].
  unfold noHash. cbn [allChars]. intros H.
  apply andb_true_iff in H. destruct H as [Hc Hpre].
  apply negb_true_iff in Hc.
  cbn [append extractLicenseFromReadme matchLicenseHeading]. rewrite Hc.
  now apply IH.
Qed.

(** X13. A README without any [#] has no License section. *)
Theorem readme_without_heading (content : string) :
  noHash content = true ->
  extractLicenseFromReadme content = None
  /\ licenseVerdict (orEmpty (extractLicenseFromReadme content))
     = {| score := 0; details := "No license information found" |}.
Proof.
  intros H.
  assert (Hnone : extractLicenseFromReadme content = None).
  { induction content as [|c content IH]; [reflexivity|].
    unfold noHash in H. cbn [allChars] in H.
    apply andb_true_iff in H. destruct H as [Hc H].
    apply negb_true_iff in Hc.
    cbn [extractLicenseFromReadme matchLicenseHeading]. rewrite Hc.
    now apply IH. }
  split; [exact Hnone|]. now rewrite Hnone.
Qed.

Lemma readme_without_heading_witness :
  extractLicenseFromReadme (unlines [ "Demo"; "Licensed under MIT" ]) = None.
Proof.
  apply (readme_without_heading (unlines [ "Demo"; "Licensed under MIT" ])).
  reflexivity.
Defined.

Lemma space_is_not_hash (c : ascii) : isSpace c = true -> isHash c = false.
Proof.
  intros H. unfold isHash. destruct (Ascii.eqb_spec c "#"); [|reflexivity].
  subst c. discriminate H.
Qed.

(** A character read as [l] by a case-blind match is neither white space
    nor [#]. *)
Lemma letter_l (c : ascii) :
  lowerChar c = "l"%char -> isSpace c = false /\ isHash c = false.
Proof.
  destruct c as [[] [] [] [] [] [] [] []]; vm_compute; intros H;
    try discriminate H; split; reflexivity.
Qed.

Lemma skipWhile_keep (f : ascii -> bool) (s : string) :
  match s with EmptyString => True | String c _ => f c = false end ->
  skipWhile f s = s.
Proof. destruct s as [|c s]; [reflexivity|]. intros H. cbn. now rewrite H. Qed.

(** The heading itself: hashes, white space, the word. *)
Lemma matchLicenseHeading_section (hashes spaces word body tail : string) :
  allChars isHash hashes = true ->
  allChars isSpace spaces = true ->
  toLowerCase word = "license" ->
  noHash body = true ->
  endOfSection tail = true ->
  matchLicenseHeading ("#" ++ hashes ++ spaces ++ word ++ body ++ tail)
  = Some (skipWhile isSpace body).
Proof.
  intros Hhashes Hspaces Hword Hbody Htail.
  assert (Hlen : String.length word = 7%nat).
  { rewrite <- toLowerCase_length, Hword. reflexivity. }
  destruct word as [|l word']; [discriminate Hword|].
  assert (Hl : lowerChar l = "l"%char) by (cbn in Hword; congruence).
  destruct (letter_l l Hl) as [Hlspace Hlhash].
  set (W := String l word' ++ body ++ tail).
  assert (H1 : skipWhile isHash (hashes ++ spaces ++ W) = spaces ++ W).
  { rewrite (skipWhile_app _ _ _ Hhashes). apply skipWhile_keep.
    destruct spaces as [|c spaces]; [exact Hlhash|].
    cbn [allChars] in Hspaces. apply andb_true_iff in Hspaces.
    apply space_is_not_hash. tauto. }
  assert (H2 : skipWhile isSpace (spaces ++ W) = W).
  { rewrite (skipWhile_app _ _ _ Hspaces). apply skipWhile_keep. exact Hlspace. }
  assert (H3 : startsWith (toLowerCase W) "license" = true).
  { subst W. rewrite toLowerCase_app, Hword. apply startsWith_app. }
  assert (H4 : drop 7 W = body ++ tail).
  { subst W. rewrite <- Hlen. apply drop_app. }
  assert (Htail' : match tail with
                   | EmptyString => True
                   | String c _ => isSpace c = false
                   end).
  { destruct tail as [|c tail]; [exact I|]. cbn in Htail.
    destruct (isSpace c) eqn:E; [|reflexivity].
    apply space_is_not_hash in E. congruence. }
  assert (Htail'' : match tail with
                    | EmptyString => True
                    | String c _ => negb (isHash c) = false
                    end).
  { destruct tail as [|c tail]; [exact I|]. cbn in Htail. now rewrite Htail. }
  fold W. unfold matchLicenseHeading. cbn [append].
  change (isHash "#") with true. cbv iota.
  rewrite H1, H2, H3, H4.
  rewrite (skipWhile_app_stop isSpace body tail Htail').
  rewrite takeWhile_app_stop; [reflexivity| |exact Htail''].
  apply allChars_skipWhile. exact Hbody.
Qed.

(** X14. The License section of a README.  Where the text in front holds
    no [#], a heading made of one or more [#], optional white space and
    the word License in any case opens the section; the section runs up
    to the next [#] or the end of the README; the result is the section
    with the white space around it removed.  The heading need not start
    a line, and what follows the word directly belongs to the section. *)
Theorem license_section_extracted
        (pre hashes spaces word body tail : string) :
  noHash pre = true ->
  allChars isHash hashes = true ->
  allChars isSpace spaces = true ->
  toLowerCase word = "license" ->
  noHash body = true ->
  endOfSection tail = true ->
  extractLicenseFromReadme
    (pre ++ "#" ++ hashes ++ spaces ++ word ++ body ++ tail)
  = Some (trim body).
Proof.
  intros Hpre Hhashes Hspaces Hword Hbody Htail.
  rewrite (extractLicenseFromReadme_skip pre _ Hpre).
  pose proof (matchLicenseHeading_section hashes spaces word body tail
                Hhashes Hspaces Hword Hbody Htail) as Hmatch.
  remember ("#" ++ hashes ++ spaces ++ word ++ body ++ tail) as content
    eqn:Hcontent.
  destruct content as [|c content]; [discriminate Hcontent|].
  cbn [extractLicenseFromReadme]. rewrite Hmatch.
  unfold trim. now rewrite !trimStart_skipWhile, skipWhile_idempotent.
Qed.

Lemma license_section_extracted_witness :
  extractLicenseFromReadme
    ("Demo, see the ##  LiCeNsEd under the MIT terms.  # Usage # License GPL")
  = Some "d under the MIT terms.".
Proof.
  exact (license_section_extracted "Demo, see the " "#" "  " "LiCeNsE"
           "d under the MIT terms.  " "# Usage # License GPL"
           eq_refl eq_refl eq_refl eq_refl eq_refl eq_refl).
Defined.

(** ** Trimming *)

Lemma allChars_takeWhile (f : ascii -> bool) (s : string) :
  allChars f (takeWhile f s) = true.
Proof.
  induction s as [|c s IH]; [reflexivity|].
  cbn [takeWhile]. destruct (f c) eqn:E; [|reflexivity].
  cbn [allChars]. now rewrite E, IH.
Qed.

Lemma allChars_trimEnd (f : ascii -> bool) (s : string) :
  allChars f s = true -> allChars f (trimEnd s) = true.
Proof.
  induction s as [|c s IH]; [reflexivity|].
  cbn [allChars trimEnd]. intros H. apply andb_true_iff in H.
  destruct H as [Hc Hs]. specialize (IH Hs).
  destruct (trimEnd s) as [|d t].
  - destruct (isSpace c); [reflexivity|]. cbn. now rewrite Hc.
  - cbn [allChars] in IH |- *. now rewrite Hc, IH.
Qed.

Lemma allChars_trim (f : ascii -> bool) (s : string) :
  allChars f s = true -> allChars f (trim s) = true.
Proof.
  intros H. unfold trim. apply allChars_trimEnd.
  rewrite trimStart_skipWhile. now apply allChars_skipWhile.
Qed.

Lemma trimEnd_idempotent (s : string) : trimEnd (trimEnd s) = trimEnd s.
Proof.
  induction s as [|c s IH]; [reflexivity|].
  cbn [trimEnd]. destruct (trimEnd s) as [|d t] eqn:E.
  - destruct (isSpace c) eqn:Hc; [reflexivity|]. cbn. now rewrite Hc.
  - cbn [trimEnd] in IH |- *. now rewrite IH.
Qed.

(** Trimming the end keeps a first character that is not white space. *)
Lemma trimEnd_head (s : string) :
  match s with EmptyString => True | String c _ => isSpace c = false end ->
  match trimEnd s with EmptyString => True | String c _ => isSpace c = false end.
Proof.
  destruct s as [|c s]; [exact (fun H => H)|]. intros Hc.
  cbn [trimEnd]. destruct (trimEnd s); [now rewrite Hc|exact Hc].
Qed.

Lemma skipWhile_head (f : ascii -> bool) (s : string) :
  match skipWhile f s with EmptyString => True | String c _ => f c = false end.
Proof.
  induction s as [|c s IH]; [exact I|].
  cbn [skipWhile]. destruct (f c) eqn:E; [exact IH|exact E].
Qed.

Lemma trim_idempotent (s : string) : trim (trim s) = trim s.
Proof.
  unfold trim. rewrite !trimStart_skipWhile.
  rewrite (skipWhile_keep isSpace (trimEnd (skipWhile isSpace s))).
  - apply trimEnd_idempotent.
  - apply trimEnd_head. apply skipWhile_head.
Qed.

Lemma matchLicenseHeading_noHash (s captured : string) :
  matchLicenseHeading s = Some captured -> noHash captured = true.
Proof.
  unfold matchLicenseHeading. destruct s as [|c s]; [discriminate|].
  destruct (isHash c); [|discriminate].
  destruct (startsWith _ "license"); [|discriminate].
  intros H. injection H as <-. apply allChars_takeWhile.
Qed.

(** X15. What [extractLicenseFromReadme] returns holds no [#] and has no
    white space at either end: trimming it again changes nothing. *)
Theorem extracted_section_is_clean (content section : string) :
  extractLicenseFromReadme content = Some section ->
  noHash section = true /\ trim section = section.
Proof.
  induction content as [|c content IH].
  - cbn. discriminate.
  - cbn [extractLicenseFromReadme].
    destruct (matchLicenseHeading (String c content)) as [captured|] eqn:E.
    + intros H. injection H as <-. split.
      * apply allChars_trim. exact (matchLicenseHeading_noHash _ _ E).
      * apply trim_idempotent.
    + exact IH.
Qed.

Lemma extracted_section_is_clean_witness :
  noHash "Apache-2.0" = true /\ trim "Apache-2.0" = "Apache-2.0".
Proof.
  exact (extracted_section_is_clean sampleReadme "Apache-2.0" eq_refl).
Defined.

(** ** The allow-list test *)

Lemma startsWith_includes (s p : string) :
  startsWith s p = true -> includes s p = true.
Proof. intros H. destruct s; cbn [includes]; now rewrite H. Qed.

Lemma includes_app_mid (a b c : string) : includes (a ++ b ++ c) b = true.
Proof.
  induction a as [|x a IH].
  - change (EmptyString ++ b ++ c) with (b ++ c).
    apply startsWith_includes. apply startsWith_app.
  - cbn [append includes]. rewrite IH. apply orb_true_r.
Qed.

Lemma isCompatibleWithLGPLv2_1_app (license name pre post : string) :
  In license compatibleLicenses ->
  toLowerCase name = toLowerCase license
  \/ toLowerCase name = replace (toLowerCase license) "-" " " ->
  isCompatibleWithLGPLv2_1 (pre ++ name ++ post) = true.
Proof.
  intros Hin Hname. unfold isCompatibleWithLGPLv2_1.
  apply existsb_exists. exists license. split; [exact Hin|].
  rewrite !toLowerCase_app. apply orb_true_iff.
  destruct Hname as [<-|<-]; [left|right]; apply includes_app_mid.
Qed.

(** X16. The allow-list test is a search for substrings, blind to case.
    A text that contains the name of an allowed license, or that name
    with its first hyphen written as a space, in any mix of upper and
    lower case and with anything before and after it, even inside a
    word, is judged compatible. *)
Theorem allow_listed_name_anywhere (license name pre post : string) :
  In license compatibleLicenses ->
  toLowerCase name = toLowerCase license
  \/ toLowerCase name = replace (toLowerCase license) "-" " " ->
  isCompatibleWithLGPLv2_1 (pre ++ name ++ post) = true.
Proof. exact (isCompatibleWithLGPLv2_1_app license name pre post). Qed.

Lemma allow_listed_name_anywhere_witness :
  isCompatibleWithLGPLv2_1 "All rights reserved. Permission is liMITed."
  = true
  /\ isCompatibleWithLGPLv2_1 "Released under the Apache 2.0 license" = true.
Proof.
  split.
  - apply (allow_listed_name_anywhere "MIT" "MIT"
             "All rights reserved. Permission is li" "ed.").
    + cbn. tauto.
    + left. reflexivity.
  - apply (allow_listed_name_anywhere "Apache-2.0" "Apache 2.0"
             "Released under the " " license").
    + cbn. tauto.
    + right. reflexivity.
Defined.

(** ** Line endings *)

Lemma trimEnd_CR (s : string) :
  trimEnd (s ++ String CR EmptyString) = trimEnd s.
Proof.
  induction s as [|c s IH]; [reflexivity|].
  cbn [append trimEnd]. now rewrite IH.
Qed.

Lemma trim_CR (s : string) : trim (s ++ String CR EmptyString) = trim s.
Proof.
  unfold trim. induction s as [|c s IH]; [reflexivity|].
  cbn [append trimStart]. destruct (isSpace c); [exact IH|].
  change (String c (s ++ String CR EmptyString))
    with (String c s ++ String CR EmptyString).
  apply trimEnd_CR.
Qed.

Lemma sameLine_trim (l l' : string) : sameLine l l' -> trim l = trim l'.
Proof. intros [->| ->]; [reflexivity|apply trim_CR]. Qed.

Lemma splitLines_withCarriageReturns (s : string) :
  Forall2 sameLine (splitLines (withCarriageReturns s)) (splitLines s).
Proof.
  induction s as [|c s IH].
  - repeat constructor.
  - cbn [withCarriageReturns splitLines].
    destruct (Ascii.eqb c LF) eqn:E.
    + cbn [splitLines]. change (Ascii.eqb CR LF) with false.
      rewrite Ascii.eqb_refl. cbv iota.
      constructor; [now right|exact IH].
    + cbn [splitLines]. rewrite E.
      destruct IH as [|l l' ls ls' Hl Hls]; [repeat constructor|].
      constructor; [|exact Hls].
      destruct Hl as [->| ->]; [now left|now right].
Qed.

Lemma countLine_trim (st : LineState) (l l' : string) :
  trim l = trim l' -> countLine st l = countLine st l'.
Proof. intros H. unfold countLine. now rewrite H. Qed.

Lemma countLines_sameLine (ls ls' : list string) :
  Forall2 sameLine ls ls' ->
  forall st, fold_left countLine ls st = fold_left countLine ls' st.
Proof.
  induction 1 as [|l l' ls ls' Hl _ IH]; intros st; [reflexivity|].
  cbn [fold_left]. rewrite (countLine_trim st l l' (sameLine_trim _ _ Hl)).
  apply IH.
Qed.

Lemma Forall2_firstn {A B : Type} (R : A -> B -> Prop) (n : nat) :
  forall l l', Forall2 R l l' -> Forall2 R (firstn n l) (firstn n l').
Proof.
  induction n as [|n IH]; intros l l' H; [constructor|].
  destruct H; cbn [firstn]; constructor; auto.
Qed.

(** X17. Windows line endings do not change the counts: a file counts
    the same with a carriage return in front of every line feed. *)
Theorem carriage_returns_do_not_count (fileContent : string) :
  countSlocAndCommentsLimited (withCarriageReturns fileContent)
  = countSlocAndCommentsLimited fileContent.
Proof.
  unfold countSlocAndCommentsLimited, limitedLines. f_equal.
  apply countLines_sameLine. apply Forall2_firstn.
  apply splitLines_withCarriageReturns.
Qed.

(** ** The repository path of getBusFactor *)



(** ** The score as a logarithm *)

(** X19. The step function is a logarithmic scale: for one contributor
    or more, up to 256, the score is a tenth of one more than the base-2
    logarithm of the count, rounded up; beyond 256 it is 1. *)
Theorem busFactorScore_logarithmic (c : N) :
  ((1 <= c <= 256)%N ->
   (busFactorScore c == (Z.of_N (N.log2_up c) + 1) # 10)%Q)
  /\ ((256 < c)%N -> (busFactorScore c == 1)%Q).
Proof.
  split.
  - intros [H1 H256].
    assert (Hlog : forall k, (0 < k)%N -> (2 ^ N.pred k < c <= 2 ^ k)%N ->
                             N.log2_up c = k).
    { intros k Hk Hc. now apply N.log2_up_unique. }
    thresholds; try lia; subst;
      try reflexivity;
      match goal with
      | |- (?q == _)%Q =>
          first
            [ rewrite (Hlog 2%N) by (cbn; lia)
            | rewrite (Hlog 3%N) by (cbn; lia)
            | rewrite (Hlog 4%N) by (cbn; lia)
            | rewrite (Hlog 5%N) by (cbn; lia)
            | rewrite (Hlog 6%N) by (cbn; lia)
            | rewrite (Hlog 7%N) by (cbn; lia)
            | rewrite (Hlog 8%N) by (cbn; lia) ];
          reflexivity
      end.
  - intros H. thresholds; try lia. reflexivity.
Qed.

Lemma busFactorScore_logarithmic_witness :
  (busFactorScore 100 == 8 # 10)%Q /\ (busFactorScore 1000 == 1)%Q.
Proof.
  split.
  - apply (proj1 (busFactorScore_logarithmic 100)). lia.
  - apply (proj2 (busFactorScore_logarithmic 1000)). lia.
Defined.

(** ** Substrings *)

Lemma startsWith_decompose (s p : string) :
  startsWith s p = true -> exists rest, s = p ++ rest.
Proof.
  revert s. induction p as [|c p IH]; intros s H.
  - now exists s.
  - destruct s as [|d s]; [discriminate H|]. cbn in H.
    apply andb_true_iff in H. destruct H as [Hc Hs].
    apply Ascii.eqb_eq in Hc. subst d.
    destruct (IH s Hs) as [rest ->]. now exists rest.
Qed.

Lemma includes_decompose (s b : string) :
  includes s b = true -> exists a c, s = a ++ b ++ c.
Proof.
  induction s as [|x s IH]; cbn [includes]; intros H;
    apply orb_true_iff in H; destruct H as [H|H].
  - destruct (startsWith_decompose _ _ H) as [rest ->].
    now exists EmptyString, rest.
  - discriminate H.
  - destruct (startsWith_decompose _ _ H) as [rest ->].
    now exists EmptyString, rest.
  - destruct (IH H) as [a [c ->]]. now exists (String x a), c.
Qed.

Lemma startsWith_app_l (s a b : string) :
  startsWith s (a ++ b) = true -> startsWith s a = true.
Proof.
  revert s. induction a as [|x a IH]; intros s H.
  - apply startsWith_nil.
  - destruct s as [|d s]; [discriminate H|]. cbn in H |- *.
    apply andb_true_iff in H. destruct H as [-> Hs]. now apply IH.
Qed.

Lemma startsWith_includes_r (s a b : string) :
  startsWith s (a ++ b) = true -> includes s b = true.
Proof.
  revert s. induction a as [|x a IH]; intros s H.
  - now apply startsWith_includes.
  - destruct s as [|d s]; [discriminate H|]. cbn in H.
    apply andb_true_iff in H. destruct H as [_ Hs].
    cbn [includes]. rewrite (IH s Hs). apply orb_true_r.
Qed.

Lemma includes_app_l (s a b : string) :
  includes s (a ++ b) = true -> includes s a = true.
Proof.
  induction s as [|x s IH]; cbn [includes]; intros H;
    apply orb_true_iff in H; destruct H as [H|H].
  - now rewrite (startsWith_app_l _ _ _ H).
  - discriminate H.
  - now rewrite (startsWith_app_l _ _ _ H).
  - rewrite (IH H). apply orb_true_r.
Qed.

Lemma includes_app_r (s a b : string) :
  includes s (a ++ b) = true -> includes s b = true.
Proof.
  induction s as [|x s IH]; intros H.
  - cbn [includes] in H. apply orb_true_iff in H. destruct H as [H|H].
    + exact (startsWith_includes_r _ _ _ H).
    + discriminate H.
  - cbn [includes] in H. apply orb_true_iff in H. destruct H as [H|H].
    + exact (startsWith_includes_r _ _ _ H).
    + cbn [includes]. rewrite (IH H). apply orb_true_r.
Qed.

(** A substring of a substring is a substring. *)
Lemma includes_trans (s p b : string) :
  includes s p = true -> includes p b = true -> includes s b = true.
Proof.
  intros Hsp Hpb. destruct (includes_decompose _ _ Hpb) as [a [c ->]].
  apply includes_app_r in Hsp. now apply includes_app_l in Hsp.
Qed.

(** The matched name holds the word [word]. *)
Ltac holds_word word :=
  match goal with
  | H : includes _ _ = true |- _ =>
      exists word; split;
      [ cbn; tauto | exact (includes_trans _ _ word H eq_refl) ]
  end.

(** X20. What the allow-list test never accepts: a text that, in lower
    case, holds none of the words gpl, mit, bsd, apache, isc and
    unlicense is judged incompatible. *)
Theorem text_without_license_word (licenseText : string) :
  existsb (includes (toLowerCase licenseText)) licenseWords = false ->
  isCompatibleWithLGPLv2_1 licenseText = false.
Proof.
  intros Hnone.
  destruct (isCompatibleWithLGPLv2_1 licenseText) eqn:E; [|reflexivity].
  exfalso. apply not_true_iff_false in Hnone. apply Hnone. clear Hnone.
  unfold isCompatibleWithLGPLv2_1 in E. apply existsb_exists in E.
  destruct E as [license [Hin Hmatch]].
  apply orb_true_iff in Hmatch.
  apply existsb_exists.
  cbn [compatibleLicenses In] in Hin.
  repeat match goal with
         | H : _ \/ _ |- _ => destruct H as [H|H]
         end;
    try contradiction; subst license;
    first
      [ holds_word "gpl" | holds_word "mit" | holds_word "bsd"
      | holds_word "apache" | holds_word "isc" | holds_word "unlicense" ].
Qed.

Lemma text_without_license_word_witness :
  isCompatibleWithLGPLv2_1 "Proprietary. All rights reserved." = false.
Proof.
  apply (text_without_license_word "Proprietary. All rights reserved.").
  reflexivity.
Defined.

(** ** A LICENSE file that names an allowed license *)

Lemma resolveRepoPath_github (w : World) (path : string) (e : Effects) :
  resolveRepoPath w ("https://github.com/" ++ path) e
  = (Returned (inr path), e).
Proof.
  rewrite resolveRepoPath_cases.
  change (startsWith ("https://github.com/" ++ path)
                     "https://www.npmjs.com/package/") with false.
  cbv iota.
  now rewrite (replace_prefix "https://github.com/" path EmptyString).
Qed.

(** X21. For a repository given by its https://github.com/ URL, a
    LICENSE file whose text holds the name of an allowed license (in any
    case, or with its first hyphen as a space) settles the check with
    the single request for that file: score 1, and the details quote the
    first line of the file.  Nothing else of the repository is looked
    at. *)
Theorem license_file_with_allowed_name
        (w : World) (token path license name pre post : string)
        (e : Effects) :
  GITHUB_TOKEN w = Some token ->
  truthy token = true ->
  In license compatibleLicenses ->
  toLowerCase name = toLowerCase license
  \/ toLowerCase name = replace (toLowerCase license) "-" " " ->
  contentsEndpoint w
    {| url := "https://api.github.com/repos/" ++ path ++ "/contents/LICENSE";
       params := [];
       headers := [ ("Accept", "application/vnd.github.v3+json");
                    ("Authorization", "token " ++ token);
                    ("User-Agent", "Your-App-Name") ] |}
  = Reply (pre ++ name ++ post) ->
  checkLicenseCompatibility w ("https://github.com/" ++ path) e
  = (Returned {| score := 1;
                 details := "License found: " ++ firstLine (pre ++ name ++ post)
                            ++ ". Compatible: true" |},
     issue [licenseFileRequest (licenseHeaders token) path] e).
Proof.
  intros Htok Htruthy Hin Hname Hfile.
  pose proof (isCompatibleWithLGPLv2_1_app license name pre post Hin Hname)
    as Hcompatible.
  assert (Htext : truthy (pre ++ name ++ post) = true).
  { destruct (pre ++ name ++ post); [discriminate Hcompatible|reflexivity]. }
  rewrite (path_file w token Htok Htruthy ("https://github.com/" ++ path) path
             e e (resolveRepoPath_github w path e) (pre ++ name ++ post)
             Hfile Htext).
  unfold licenseVerdict. now rewrite Htext, Hcompatible.
Qed.

Lemma license_file_with_allowed_name_witness :
  fst (checkLicenseCompatibility mitLicensed
         "https://github.com/octocat/hello" noEffects)
  = Returned {| score := 1;
                details := "License found: The MIT License (MIT). Compatible: true" |}.
Proof.
  exact (f_equal fst
           (license_file_with_allowed_name mitLicensed "ghp_token"
              "octocat/hello" "MIT" "MIT" "The "
              (" License (MIT)"
               ++ String LF (String LF "Copyright (c) the authors"))
              noEffects eq_refl eq_refl
              (or_intror (or_intror (or_intror (or_intror (or_introl eq_refl)))))
              (or_introl eq_refl) eq_refl)).
Defined.
